(** * LiteChat runner: download, unpack and serve

    A shallow embedding of [runner/litechat.py].  The script is a straight
    line of I/O calls wrapped in one [try]/[except]; it is modelled here as a
    computation over the content of the working directory and a trace of
    observable events.  What the network, the archive decoder and the
    socket layer answer is read from an environment record, so every
    statement below quantifies over all those answers. *)

From stdpp Require Import gmap strings list fin_maps pretty.
From Stdlib Require Import ZArith Ascii.

#[local] Set Warnings "-register-all".
#[local] Open Scope string_scope.
#[local] Open Scope list_scope.

(** ** Files and directories below [temp_dir] *)

(** The working directory is a tree of regular files and directories.
    Operations fail for the reasons the tree itself gives (a name that is
    missing, a file where a directory is needed and the reverse); failures
    that come from elsewhere (the network, a full disk, a damaged archive, a
    busy port) are answers of the environment further down. *)

Definition bytes := list Byte.byte.

(** A path is the list of its components, relative to [temp_dir]. *)
Definition path := list string.

Inductive node :=
| File (data : bytes)
| Dir (entries : gmap string node).

(** The working directory itself may be missing ([None]) before the run. *)
Definition filesystem := option node.

(** Python exceptions the script can meet.  The four [OSError] subclasses
    are raised by the filesystem model below and carry the offending
    path; [Exception] stands for anything else deriving from
    [Exception] (URLError, BadZipFile, socket.gaierror, ...) together with
    its [str()]. *)
Inductive exn :=
| FileExistsError (p : path)
| FileNotFoundError (p : path)
| IsADirectoryError (p : path)
| NotADirectoryError (p : path)
| Exception (msg : string).

Fixpoint lookup_path (p : path) (n : node) : option node :=
  match p with
  | [] => Some n
  | c :: p' =>
      match n with
      | Dir m => m !! c ≫= lookup_path p'
      | File _ => None
      end
  end.

Definition stat (p : path) (fs : filesystem) : option node :=
  fs ≫= lookup_path p.

(** A path string as the [os.path] predicates see it: its components and
    whether it ends in a slash, in which case it only resolves to a
    directory. *)
Record local_path := Local {
  components : path;
  trailing_slash : bool }.

Definition resolve (l : local_path) (fs : filesystem) : option node :=
  match stat (components l) fs with
  | Some (File d) => if trailing_slash l then None else Some (File d)
  | r => r
  end.

Definition os_path_exists (l : local_path) (fs : filesystem) : bool :=
  match resolve l fs with Some _ => true | None => false end.

Definition os_path_isdir (l : local_path) (fs : filesystem) : bool :=
  match resolve l fs with Some (Dir _) => true | _ => false end.

Definition os_path_isfile (l : local_path) (fs : filesystem) : bool :=
  match resolve l fs with Some (File _) => true | _ => false end.

Definition os_path_join (l : local_path) (name : string) : local_path :=
  Local (components l ++ [name]) false.

(** [open(p, 'wb')] followed by writing [d]: creates or truncates the last
    component, never a missing parent.  [walked] is the prefix already
    traversed; an [OSError] names the path that was passed to the call. *)
Fixpoint write_at (walked p : path) (d : bytes) (n : node) : exn + node :=
  match p, n with
  | [], File _ => inr (File d)
  | [], Dir _ => inl (IsADirectoryError walked)
  | _ :: _, File _ => inl (NotADirectoryError (walked ++ p))
  | c :: p', Dir m =>
      match m !! c with
      | Some child =>
          match write_at (walked ++ [c]) p' d child with
          | inr child' => inr (Dir (<[c := child']> m))
          | inl e => inl e
          end
      | None =>
          match p' with
          | [] => inr (Dir (<[c := File d]> m))
          | _ => inl (FileNotFoundError (walked ++ p))
          end
      end
  end.

Definition open_wb (p : path) (d : bytes) (fs : filesystem)
  : exn + filesystem :=
  match fs with
  | None =>
      match p with
      | [] => inr (Some (File d))
      | _ => inl (FileNotFoundError p)
      end
  | Some n =>
      match write_at [] p d n with
      | inr n' => inr (Some n')
      | inl e => inl e
      end
  end.

(** [os.remove(p)]: unlinks a regular file only; [inr None] tells the
    parent that the node itself is gone. *)
Fixpoint unlink (walked p : path) (n : node) : exn + option node :=
  match p, n with
  | [], File _ => inr None
  | [], Dir _ => inl (IsADirectoryError walked)
  | _ :: _, File _ => inl (NotADirectoryError (walked ++ p))
  | c :: p', Dir m =>
      match m !! c with
      | None => inl (FileNotFoundError (walked ++ p))
      | Some child =>
          match unlink (walked ++ [c]) p' child with
          | inr (Some child') => inr (Some (Dir (<[c := child']> m)))
          | inr None => inr (Some (Dir (delete c m)))
          | inl e => inl e
          end
      end
  end.

Definition os_remove (p : path) (fs : filesystem) : exn + filesystem :=
  match fs with
  | None => inl (FileNotFoundError p)
  | Some n => unlink [] p n
  end.

(** [os.makedirs(temp_dir, exist_ok=True)]; the parent of [temp_dir] is the
    directory holding the script, so it exists. *)
Definition os_makedirs (fs : filesystem) : exn + filesystem :=
  match fs with
  | None => inr (Some (Dir ∅))
  | Some (Dir m) => inr (Some (Dir m))
  | Some (File _) => inl (FileExistsError [])
  end.

(** ** Archive members *)

(** A zip entry after the name sanitising of [zipfile]: its relative
    components and its body, [None] for a directory entry. *)
Record member := Member {
  member_name : path;
  member_body : option bytes }.

(** The tree that a not yet existing name [p] holds after extraction. *)
Fixpoint fresh (p : path) (body : option bytes) : node :=
  match p with
  | [] => match body with Some d => File d | None => Dir ∅ end
  | c :: p' => Dir {[ c := fresh p' body ]}
  end.

(** The filesystem part of [ZipFile._extract_member]: missing upper
    directories are created ([os.makedirs], which stops at the first
    component lying below a regular file), a directory entry is made unless
    it is there, a file entry is opened with ['wb'] and filled. *)
Fixpoint extract_at (walked p : path) (body : option bytes) (n : node)
  : exn + node :=
  match p, n with
  | [], File _ =>
      match body with
      | Some d => inr (File d)
      | None => inl (FileExistsError walked)
      end
  | [], Dir m =>
      match body with
      | Some _ => inl (IsADirectoryError walked)
      | None => inr (Dir m)
      end
  | c :: _, File _ => inl (NotADirectoryError (walked ++ [c]))
  | c :: p', Dir m =>
      match m !! c with
      | Some child =>
          match extract_at (walked ++ [c]) p' body child with
          | inr child' => inr (Dir (<[c := child']> m))
          | inl e => inl e
          end
      | None => inr (Dir (<[c := fresh p' body]> m))
      end
  end.

Definition extract_to (p : path) (body : option bytes) (fs : filesystem)
  : exn + filesystem :=
  match fs with
  | None => inr (Some (fresh p body))
  | Some n =>
      match extract_at [] p body n with
      | inr n' => inr (Some n')
      | inl e => inl e
      end
  end.

(** ** What the outside world answers *)

(** [urlretrieve] either brings the whole resource, or fails: before the
    destination is opened ([partial = None]) or after some bytes were
    written to it. *)
Inductive download :=
| Downloaded (content : bytes)
| DownloadFailed (e : exn) (partial : option bytes).

(** A failure of the disk or of the decoder while one member is being
    extracted: the exception, and what the target file holds if it was
    already opened. *)
Record fault := Fault {
  fault_exn : exn;
  fault_partial : option bytes }.

Record env := Env {
  script_dir : string;
  urlopen : string → download;
  ZipFile : bytes → exn + list member;
  member_fault : nat → option fault;
  server_bind : string → Z → option exn;
  gethostname : string;
  gethostbyname : string → exn + string }.

(** The parsed command line.  Lines 12 to 15 are not modelled: a process
    that [argparse] ends itself (the help text with status 0, a usage
    error with status 2) never gets to line 17, where the runs of this
    model start. *)
Record args := Args {
  port : Z;
  host : bool }.

(** ** Computations *)

Inductive event :=
| Print (line : string)
| Listen (address : string) (tcp_port : Z).

Record world := World {
  fs : filesystem;
  trace : list event }.

(** How a statement ends: normally, by an exception, by [sys.exit], or not
    at all ([serve_forever]). *)
Inductive res (A : Type) :=
| Ret (a : A)
| Raise (e : exn)
| SysExit (status : Z)
| Forever.
Arguments Ret {A} a.
Arguments Raise {A} e.
Arguments SysExit {A} status.
Arguments Forever {A}.

Definition M (A : Type) := world → res A * world.

#[export] Instance M_ret : MRet M := fun A a w => (Ret a, w).

#[export] Instance M_bind : MBind M := fun A B k c w =>
  match c w with
  | (Ret a, w') => k a w'
  | (Raise e, w') => (Raise e, w')
  | (SysExit n, w') => (SysExit n, w')
  | (Forever, w') => (Forever, w')
  end.

Definition raise {A} (e : exn) : M A := fun w => (Raise e, w).

(** [try: body except Exception as e: handler e] *)
Definition try_except {A} (body : M A) (handler : exn → M A) : M A :=
  fun w =>
    match body w with
    | (Raise e, w') => handler e w'
    | r => r
    end.

Definition print (line : string) : M unit :=
  fun w => (Ret tt, World (fs w) (trace w ++ [Print line])).

Definition sys_exit {A} (status : Z) : M A := fun w => (SysExit status, w).

(** Lifts a filesystem operation that may raise. *)
Definition on_fs (op : filesystem → exn + filesystem) : M unit :=
  fun w =>
    match op (fs w) with
    | inr fs' => (Ret tt, World fs' (trace w))
    | inl e => (Raise e, w)
    end.

Definition exists_ (p : path) : M bool :=
  fun w => (Ret (os_path_exists (Local p false) (fs w)), w).

(** [if cond: body] *)
Definition if_ (cond : M bool) (body : M unit) : M unit :=
  mbind (fun b : bool => if b then body else mret tt) cond.

(** ** The script *)

(** [temp_dir] as a string; every [path] of the model is relative to it. *)
Definition temp_dir (E : env) : string := script_dir E +:+ "/litechat-app".

Definition zip_path : path := ["litechat.zip"].

Definition release_url : string :=
  "https://litechat.dbuild.dev/release/latest.zip".

(** [request.urlretrieve(url, zip_path)] *)
Definition urlretrieve (E : env) (url : string) : M unit :=
  match urlopen E url with
  | DownloadFailed e None => raise e
  | DownloadFailed e (Some d) => on_fs (open_wb zip_path d);; raise e
  | Downloaded d => on_fs (open_wb zip_path d)
  end.

(** [zipfile.ZipFile(zip_path, 'r')]: reads the archive back and decodes
    its directory. *)
Definition open_archive (E : env) : M (list member) :=
  fun w =>
    match stat zip_path (fs w) with
    | Some (File d) =>
        match ZipFile E d with
        | inr members => (Ret members, w)
        | inl e => (Raise e, w)
        end
    | Some (Dir _) => (Raise (IsADirectoryError zip_path), w)
    | None => (Raise (FileNotFoundError zip_path), w)
    end.

(** Extraction of the member at position [i] of the archive. *)
Definition _extract_member (E : env) (i : nat) (m : member) : M unit :=
  match member_fault E i with
  | None => on_fs (extract_to (member_name m) (member_body m))
  | Some f =>
      match fault_partial f, member_body m with
      | Some d, Some _ =>
          on_fs (extract_to (member_name m) (Some d));; raise (fault_exn f)
      | _, _ => raise (fault_exn f)
      end
  end.

Fixpoint extract_from (E : env) (i : nat) (members : list member) : M unit :=
  match members with
  | [] => mret tt
  | m :: rest => _extract_member E i m;; extract_from E (S i) rest
  end.

(** [with zipfile.ZipFile(zip_path, 'r') as zip_ref:
        zip_ref.extractall(temp_dir)] *)
Definition extractall (E : env) : M unit :=
  members ← open_archive E; extract_from E 0 members.

(** [HTTPServer((host, port), SPAHandler)]: binds and listens. *)
Definition HTTPServer (E : env) (address : string) (tcp_port : Z) : M unit :=
  fun w =>
    match server_bind E address tcp_port with
    | Some e => (Raise e, w)
    | None => (Ret tt, World (fs w) (trace w ++ [Listen address tcp_port]))
    end.

Definition socket_gethostbyname (E : env) (name : string) : M string :=
  fun w =>
    match gethostbyname E name with
    | inr ip => (Ret ip, w)
    | inl e => (Raise e, w)
    end.

Definition serve_forever : M unit := fun w => (Forever, w).

(** [str(e)] as [print(f"Error: {e}")] shows it. *)
Definition abspath (E : env) (p : path) : string :=
  foldl (fun acc c => acc +:+ "/" +:+ c) (temp_dir E) p.

Definition str (E : env) (e : exn) : string :=
  match e with
  | FileExistsError p => "[Errno 17] File exists: '" +:+ abspath E p +:+ "'"
  | FileNotFoundError p =>
      "[Errno 2] No such file or directory: '" +:+ abspath E p +:+ "'"
  | IsADirectoryError p =>
      "[Errno 21] Is a directory: '" +:+ abspath E p +:+ "'"
  | NotADirectoryError p =>
      "[Errno 20] Not a directory: '" +:+ abspath E p +:+ "'"
  | Exception msg => msg
  end.

Definition access_message (a : args) (ip : string) : string :=
  if host a
  then "http://" +:+ ip +:+ ":" +:+ pretty (port a)
       +:+ " (accessible from other devices)"
  else "http://localhost:" +:+ pretty (port a) +:+ " (local access only)".

(** Lines 19 to 25: what runs before [try].  [os.chdir] has no effect of
    its own here, paths being relative to [temp_dir] already. *)
Definition prologue : M unit :=
  on_fs os_makedirs;;
  print "Downloading LiteChat release...".

(** Lines 28 and 29. *)
Definition fetch (E : env) : M unit :=
  urlretrieve E release_url;;
  print "Download complete. Extracting...".

(** Lines 32 to 37. *)
Definition unpack (E : env) : M unit :=
  extractall E;;
  on_fs (os_remove zip_path);;
  print "Extraction complete.".

(** Lines 46 to 54. *)
Definition serve (E : env) (a : args) : M unit :=
  let host := if host a then "0.0.0.0" else "localhost" in
  HTTPServer E host (port a);;
  let hostname := gethostname E in
  ip ← socket_gethostbyname E hostname;
  print ("LiteChat is running at " +:+ access_message a ip);;
  serve_forever.

(** Lines 56 to 60. *)
Definition handler (E : env) (e : exn) : M unit :=
  if_ (exists_ zip_path) (on_fs (os_remove zip_path));;
  print ("Error: " +:+ str E e);;
  sys_exit 1%Z.

Definition main (E : env) (a : args) : M unit :=
  prologue;;
  try_except (fetch E;; unpack E;; serve E a) (handler E).

(** ** The request handler *)

(** [SPAHandler] extends [SimpleHTTPRequestHandler] of the Python standard
    library, whose [do_GET] it calls after its own test.  The parent class
    is modelled after [send_head] of [http.server].

    A GET request is its path and the two header fields that [send_head]
    reads: [if_modified_since] is the value of [If-Modified-Since] in
    seconds, [None] when the field is absent, ill-formed or not in UTC,
    in which cases [send_head] ignores it; [if_none_match] tells whether
    [If-None-Match] is present. *)
Record request := Request {
  request_path : string;
  if_modified_since : option Z;
  if_none_match : bool }.

(** [self.path = p] *)
Definition set_path (self : request) (p : string) : request :=
  Request p (if_modified_since self) (if_none_match self).

(** What the handler takes from the library and the operating system:
    [translate_path] maps a request path to a local path below the
    document root (the working directory, after [os.chdir]);
    [ends_with_slash] tells whether the path part of the URL ends in a
    slash and [add_slash] is the URL with a slash put after its path part
    ([urlsplit] and [urlunsplit]); [st_mtime] is the modification time
    of a file in whole seconds ([os.fstat]).  Statements about the
    handler hold for all of them. *)
Class UrlLib := {
  translate_path : string → local_path;
  ends_with_slash : string → bool;
  add_slash : string → string;
  st_mtime : filesystem → path → Z }.

Inductive response :=
| OK (served : path) (body : bytes)
| Listing (directory : path) (names : gset string)
| MovedPermanently (location : string)
| NotModified
| NotFound.

Module SimpleHTTPRequestHandler.
Section Handler.
Context `{UrlLib}.

(** [open(path, 'rb')], any [OSError] giving [None]. *)
Definition open_rb (l : local_path) (fs : filesystem) : option bytes :=
  match resolve l fs with
  | Some (File d) => Some d
  | _ => None
  end.

Definition list_directory (l : local_path) (fs : filesystem) : response :=
  match resolve l fs with
  | Some (Dir m) => Listing (components l) (dom m)
  | _ => NotFound
  end.

(** Use the browser cache if possible: the request has a usable
    [If-Modified-Since], no [If-None-Match], and the file was not
    modified after that time. *)
Definition use_cache (self : request) (last_modif : Z) : bool :=
  match if_modified_since self with
  | Some ims => (negb (if_none_match self) && (last_modif <=? ims)%Z)%bool
  | None => false
  end.

(** [send_head] followed by [copyfile]: a directory is redirected to its
    slash form, answered with its own [index.html] or [index.htm], or
    listed; anything else is opened as a file, which is answered with
    304 and no body when the cache can be used, and with its bytes
    otherwise. *)
Definition do_GET (fs : filesystem) (self : request) : response :=
  let path := translate_path (request_path self) in
  let send path :=
    if trailing_slash path then NotFound
    else
      match open_rb path fs with
      | None => NotFound
      | Some d =>
          if use_cache self (st_mtime fs (components path)) then NotModified
          else OK (components path) d
      end in
  if os_path_isdir path fs then
    if negb (ends_with_slash (request_path self))
    then MovedPermanently (add_slash (request_path self))
    else
      match
        find (fun index => os_path_isfile (os_path_join path index) fs)
          ["index.html"; "index.htm"]
      with
      | Some index => send (os_path_join path index)
      | None => list_directory path fs
      end
  else send path.

End Handler.
End SimpleHTTPRequestHandler.

Module SPAHandler.
Section Handler.
Context `{UrlLib}.

Definition do_GET (fs : filesystem) (self : request) : response :=
  let self :=
    if negb (os_path_exists (translate_path (request_path self)) fs)
    then set_path self "/index.html"
    else self in
  SimpleHTTPRequestHandler.do_GET fs self.

End Handler.
End SPAHandler.

(** ** The process *)

Inductive outcome :=
| Exited (status : Z)
| Uncaught (e : exn)
| Serving.

Record run_result := Run {
  final_fs : filesystem;
  events : list event;
  ended : outcome }.

Definition finish (rw : res unit * world) : run_result :=
  Run (fs rw.2) (trace rw.2)
    match rw.1 with
    | Ret _ => Exited 0%Z
    | Raise e => Uncaught e
    | SysExit n => Exited n
    | Forever => Serving
    end.

Definition run (E : env) (a : args) (fs0 : filesystem) : run_result :=
  finish (main E a (World fs0 [])).

(** The interpreter ends with status [1] on an uncaught exception; a
    server that keeps serving has no status. *)
Definition exit_status (r : run_result) : option Z :=
  match ended r with
  | Exited n => Some n
  | Uncaught _ => Some 1%Z
  | Serving => None
  end.

Definition stdout (r : run_result) : list string :=
  omap (fun ev => match ev with Print l => Some l | _ => None end) (events r).

(** What reaches the standard error stream: the script never writes
    there, the interpreter does for an uncaught exception, whose traceback
    is stood for by the exception. *)
Definition stderr (r : run_result) : list exn :=
  match ended r with
  | Uncaught e => [e]
  | _ => []
  end.

(** ** A concrete URL layer and sample data *)

(** The path part of a request target: everything before the first [?]
    or [#]. *)
Fixpoint url_path (s : string) : string :=
  match s with
  | "" => ""
  | String a s' =>
      if (Ascii.eqb a "?"%char || Ascii.eqb a "#"%char)%bool then ""
      else String a (url_path s')
  end.

Fixpoint split_slash (s : string) : list string :=
  match s with
  | "" => [""]
  | String a s' =>
      if Ascii.eqb a "/"%char then "" :: split_slash s'
      else
        match split_slash s' with
        | w :: ws => String a w :: ws
        | [] => [String a ""]
        end
  end.

Fixpoint endswith_slash (s : string) : bool :=
  match s with
  | "" => false
  | String a "" => Ascii.eqb a "/"%char
  | String _ s' => endswith_slash s'
  end.

(** [posixpath.normpath] followed by the filter of [translate_path]: empty
    words and [.] vanish, [..] drops the word before it. *)
Definition normpath_words (words : list string) : path :=
  foldl
    (fun stack w =>
       if (String.eqb w "" || String.eqb w ".")%bool then stack
       else if String.eqb w ".." then removelast stack
       else stack ++ [w])
    [] words.

(** What follows the path part of a request target. *)
Fixpoint url_rest (s : string) : string :=
  match s with
  | "" => ""
  | String a s' =>
      if (Ascii.eqb a "?"%char || Ascii.eqb a "#"%char)%bool then s
      else url_rest s'
  end.

(** [translate_path], [urlsplit] and [urlunsplit] on origin-form request
    targets without percent escapes, with every file last modified at one
    and the same second. *)
Definition posix_urls : UrlLib := {|
  translate_path s :=
    Local (normpath_words (split_slash (url_path s)))
      (endswith_slash (url_path s));
  ends_with_slash s := endswith_slash (url_path s);
  add_slash s := url_path s +:+ "/" +:+ url_rest s;
  st_mtime := fun _ _ => 1700000000%Z |}.

(** A plain GET, and a GET of a browser that holds a copy taken at the
    given second. *)
Definition GET (p : string) : request := Request p None false.

Definition GET_since (p : string) (seconds : Z) : request :=
  Request p (Some seconds) false.

Definition html : bytes :=
  [Byte.x3c; Byte.x68; Byte.x74; Byte.x6d; Byte.x6c; Byte.x3e].
Definition script : bytes := [Byte.x61; Byte.x3d; Byte.x31].
Definition zipped : bytes := [Byte.x50; Byte.x4b; Byte.x03; Byte.x04].

(** An unpacked release: [index.html] and [assets/app.js]. *)
Definition site : filesystem :=
  Some (Dir {[ "index.html" := File html;
               "assets" := Dir {[ "app.js" := File script ]} ]}).

Definition release : list member :=
  [Member ["index.html"] (Some html); Member ["assets"] None;
   Member ["assets"; "app.js"] (Some script)].

(** A run in which everything works. *)
Definition fine : env := {|
  script_dir := "/opt/runner";
  urlopen := fun _ => Downloaded zipped;
  ZipFile := fun _ => inr release;
  member_fault := fun _ => None;
  server_bind := fun _ _ => None;
  gethostname := "box";
  gethostbyname := fun _ => inr "192.168.1.7" |}.

(** The network is down. *)
Definition offline : env := {|
  script_dir := "/opt/runner";
  urlopen := fun _ =>
    DownloadFailed (Exception "<urlopen error timed out>") None;
  ZipFile := fun _ => inr release;
  member_fault := fun _ => None;
  server_bind := fun _ _ => None;
  gethostname := "box";
  gethostbyname := fun _ => inr "192.168.1.7" |}.

(** The disk fills up while the third member is written. *)
Definition disk_full : env := {|
  script_dir := "/opt/runner";
  urlopen := fun _ => Downloaded zipped;
  ZipFile := fun _ => inr release;
  member_fault := fun i =>
    if decide (i = 2)
    then Some (Fault (Exception "[Errno 28] No space left on device")
                 (Some []))
    else None;
  server_bind := fun _ _ => None;
  gethostname := "box";
  gethostbyname := fun _ => inr "192.168.1.7" |}.

(** The release is a well-formed archive without entries. *)
Definition empty_release : env := {|
  script_dir := "/opt/runner";
  urlopen := fun _ => Downloaded zipped;
  ZipFile := fun _ => inr [];
  member_fault := fun _ => None;
  server_bind := fun _ _ => None;
  gethostname := "box";
  gethostbyname := fun _ => inr "192.168.1.7" |}.

Definition quiet : args := Args 3000 false.
Definition exposed : args := Args 3000 true.

(** The worlds that the sample runs go through, starting without a working
    directory: after the prologue, after a good fetch and extract stage,
    and at the moment the full disk stops extraction. *)
Definition downloading : world :=
  World (Some (Dir ∅)) [Print "Downloading LiteChat release..."].

Definition unpacked : world :=
  World site
    [Print "Downloading LiteChat release...";
     Print "Download complete. Extracting...";
     Print "Extraction complete."].

Definition half_unpacked : world :=
  World
    (Some (Dir {[ "litechat.zip" := File zipped;
                  "index.html" := File html;
                  "assets" := Dir {[ "app.js" := File [] ]} ]}))
    [Print "Downloading LiteChat release...";
     Print "Download complete. Extracting..."].

(** ** Vocabulary of the statements *)

Definition is_file (n : node) : bool :=
  match n with File _ => true | Dir _ => false end.

(** [m'] has every entry of [m], each still of the same kind. *)
Definition grows (m m' : gmap string node) : Prop :=
  ∀ c n, m !! c = Some n → ∃ n', m' !! c = Some n' ∧ is_file n' = is_file n.

(** The first component of each member name. *)
Definition top_names (members : list member) : list string :=
  omap (fun m => head (member_name m)) members.

(** A statement that returns or raises, with what holds in either case. *)
Definition ends {A} (r : res A * world)
    (normal : A → world → Prop) (exceptional : exn → world → Prop) : Prop :=
  match r with
  | (Ret a, w) => normal a w
  | (Raise e, w) => exceptional e w
  | _ => False
  end.

Definition dir_world (m : gmap string node) (t : list event) : world :=
  World (Some (Dir m)) t.

(** The entries of the working directory once [os.makedirs] is through. *)
Definition initial_entries (fs0 : filesystem) : option (gmap string node) :=
  match fs0 with
  | None => Some ∅
  | Some (Dir m) => Some m
  | Some (File _) => None
  end.

Definition zip_is_dir (m : gmap string node) : bool :=
  match m !! "litechat.zip" with Some (Dir _) => true | _ => false end.

(** The download went through and [extractall] raised [e], leaving the
    world [w]. *)
Definition extraction_fails (E : env) (fs0 : filesystem) (e : exn) (w : world)
  : Prop :=
  ∃ w1 w2,
    prologue (World fs0 []) = (Ret tt, w1) ∧
    fetch E w1 = (Ret tt, w2) ∧
    extractall E w2 = (Raise e, w).

(** The run got as far as [server.serve_forever()]. *)
Definition serving (r : run_result) : Prop := ended r = Serving.

Definition bind_address (a : args) : string :=
  if host a then "0.0.0.0" else "localhost".

Fixpoint startswith (pre s : string) : bool :=
  match pre, s with
  | "", _ => true
  | String a pre', String b s' => (Ascii.eqb a b && startswith pre' s')%bool
  | _, _ => false
  end.

Definition is_access_line (line : string) : bool :=
  startswith "LiteChat is running at " line.

(** What the static-file logic answers for a directory: a redirect to the
    slash form when the URL lacks the slash, else the directory's own
    index (or 304 in its place, to a conditional request) or a listing. *)
Definition directory_answer `{UrlLib} (self : request) (r : response)
  : Prop :=
  let l := translate_path (request_path self) in
  match r with
  | MovedPermanently location =>
      ends_with_slash (request_path self) = false
      ∧ location = add_slash (request_path self)
  | OK served _ =>
      served = components l ++ ["index.html"]
      ∨ served = components l ++ ["index.htm"]
  | NotModified => is_Some (if_modified_since self)
  | Listing d _ => d = components l
  | NotFound => False
  end.

(** What the static-file logic answers for a regular file with bytes [d]
    at the local path [l]. *)
Definition file_answer `{UrlLib} (self : request) (fs : filesystem)
    (l : path) (d : bytes) : response :=
  if SimpleHTTPRequestHandler.use_cache self (st_mtime fs l)
  then NotModified
  else OK l d.

(** ** More sample data *)

(** A working directory left by an earlier release. *)
Definition old_release : filesystem :=
  Some (Dir {[ "index.html" := File script;
               "old.css" := File script ]}).

(** The same after the sample release is unpacked over it. *)
Definition upgraded : world :=
  World
    (Some (Dir {[ "index.html" := File html;
                  "old.css" := File script;
                  "assets" := Dir {[ "app.js" := File script ]} ]}))
    [Print "Downloading LiteChat release...";
     Print "Download complete. Extracting...";
     Print "Extraction complete."].

(** A working directory in which the archive path is a directory. *)
Definition blocked : filesystem :=
  Some (Dir {[ "litechat.zip" := Dir ∅ ]}).

(** The connection drops after two bytes. *)
Definition cut_off : env := {|
  script_dir := "/opt/runner";
  urlopen := fun _ =>
    DownloadFailed
      (Exception "retrieval incomplete: got only 2 out of 4 bytes")
      (Some [Byte.x50; Byte.x4b]);
  ZipFile := fun _ => inr release;
  member_fault := fun _ => None;
  server_bind := fun _ _ => None;
  gethostname := "box";
  gethostbyname := fun _ => inr "192.168.1.7" |}.

(** What was downloaded is no zip archive. *)
Definition bad_zip : env := {|
  script_dir := "/opt/runner";
  urlopen := fun _ => Downloaded zipped;
  ZipFile := fun _ => inl (Exception "File is not a zip file");
  member_fault := fun _ => None;
  server_bind := fun _ _ => None;
  gethostname := "box";
  gethostbyname := fun _ => inr "192.168.1.7" |}.

(** The port is taken. *)
Definition port_busy : env := {|
  script_dir := "/opt/runner";
  urlopen := fun _ => Downloaded zipped;
  ZipFile := fun _ => inr release;
  member_fault := fun _ => None;
  server_bind := fun _ _ =>
    Some (Exception "[Errno 98] Address already in use");
  gethostname := "box";
  gethostbyname := fun _ => inr "192.168.1.7" |}.

(** The machine's own name does not resolve. *)
Definition no_resolver : env := {|
  script_dir := "/opt/runner";
  urlopen := fun _ => Downloaded zipped;
  ZipFile := fun _ => inr release;
  member_fault := fun _ => None;
  server_bind := fun _ _ => None;
  gethostname := "box";
  gethostbyname := fun _ =>
    inl (Exception "[Errno -2] Name or service not known") |}.

(** ** Vocabulary of the further statements *)

(** The body that the last member named [p] brings, if the archive names
    [p] at all. *)
Fixpoint last_write (p : path) (members : list member)
  : option (option bytes) :=
  match members with
  | [] => None
  | mb :: rest =>
      match last_write p rest with
      | Some body => Some body
      | None =>
          if decide (member_name mb = p) then Some (member_body mb) else None
      end
  end.


(** Whatever [fs] holds away from the archive path, [fs'] holds too, and
    of the same kind. *)
Definition survives (fs fs' : filesystem) : Prop :=
  ∀ p x, head p ≠ Some "litechat.zip" → stat p fs = Some x →
         ∃ x', stat p fs' = Some x' ∧ is_file x' = is_file x.

(** A statement after which everything has survived, however it ends. *)
Definition preserving {A} (c : M A) : Prop :=
  ∀ w, survives (fs w) (fs (c w).2).

(** Reads a world with a directory at its root as [dir_world]. *)
Ltac fold_world :=
  repeat match goal with
         | |- context [World (Some (Dir ?m)) ?t] =>
             change (World (Some (Dir m)) t) with (dir_world m t)
         end.

(** Closes a goal saying that each event of an explicit list is of a
    known form. *)
Ltac only_printed :=
  let ev := fresh "ev" in
  let Hev := fresh "Hev" in
  intros ev Hev;
  repeat (apply elem_of_cons in Hev as [->|Hev]; [by eauto|]);
  by apply elem_of_nil in Hev.

(** * Properties of the request handler *)

Section HandlerFacts.
Context `{UrlLib}.

Lemma super_existing_file fs self d :
  resolve (translate_path (request_path self)) fs = Some (File d) →
  SimpleHTTPRequestHandler.do_GET fs self
  = file_answer self fs (components (translate_path (request_path self))) d.
Proof.
  intros Hres. unfold SimpleHTTPRequestHandler.do_GET, os_path_isdir.
  rewrite Hres. unfold SimpleHTTPRequestHandler.open_rb. rewrite Hres.
  destruct (trailing_slash (translate_path (request_path self))) eqn:Hslash;
    [|done].
  unfold resolve in Hres. rewrite Hslash in Hres.
  by destruct (stat _ fs) as [[]|].
Qed.

Lemma exists_of_resolve l fs n :
  resolve l fs = Some n → os_path_exists l fs = true.
Proof. unfold os_path_exists. by intros ->. Qed.

Lemma isdir_exists l fs :
  os_path_isdir l fs = true → os_path_exists l fs = true.
Proof.
  unfold os_path_isdir, os_path_exists. by destruct (resolve l fs) as [[]|].
Qed.

Lemma kept_when_exists fs self :
  os_path_exists (translate_path (request_path self)) fs = true →
  SPAHandler.do_GET fs self = SimpleHTTPRequestHandler.do_GET fs self.
Proof. unfold SPAHandler.do_GET. by intros ->. Qed.

Lemma rewritten_when_missing fs self :
  os_path_exists (translate_path (request_path self)) fs = false →
  SPAHandler.do_GET fs self
  = SimpleHTTPRequestHandler.do_GET fs (set_path self "/index.html").
Proof. unfold SPAHandler.do_GET. by intros ->. Qed.

Lemma set_path_twice self p q : set_path (set_path self p) q = set_path self q.
Proof. done. Qed.

Lemma entry_document_fixed fs self :
  SPAHandler.do_GET fs (set_path self "/index.html")
  = SimpleHTTPRequestHandler.do_GET fs (set_path self "/index.html").
Proof.
  unfold SPAHandler.do_GET. destruct (negb _); [|done].
  by rewrite set_path_twice.
Qed.

(** C1, as amended: a GET whose translated path does not exist below the
    document root, neither as a file nor as a directory, has its path
    replaced by [/index.html] before the static-file logic runs, and so
    gets the very response of the same request made for [/index.html]. *)
Theorem missing_path_falls_back fs self :
  os_path_exists (translate_path (request_path self)) fs = false →
  SPAHandler.do_GET fs self
  = SimpleHTTPRequestHandler.do_GET fs (set_path self "/index.html")
  ∧ SPAHandler.do_GET fs self
    = SPAHandler.do_GET fs (set_path self "/index.html").
Proof.
  intros Hmissing. rewrite entry_document_fixed.
  split; by apply rewritten_when_missing.
Qed.

(** C2, as amended: a GET whose path is an existing regular file is
    delegated with its path unchanged; the response carries exactly the
    bytes of that file, unless the request is a conditional one that
    the file satisfies ([If-Modified-Since] not before the file's
    modification time, no [If-None-Match]), which is answered 304
    without a body. *)
Theorem existing_file_served fs self d :
  resolve (translate_path (request_path self)) fs = Some (File d) →
  SPAHandler.do_GET fs self = SimpleHTTPRequestHandler.do_GET fs self
  ∧ SPAHandler.do_GET fs self
    = (if SimpleHTTPRequestHandler.use_cache self
            (st_mtime fs (components (translate_path (request_path self))))
       then NotModified
       else OK (components (translate_path (request_path self))) d)
  ∧ (if_modified_since self = None →
     SPAHandler.do_GET fs self
     = OK (components (translate_path (request_path self))) d).
Proof.
  intros Hfile.
  assert (SPAHandler.do_GET fs self = SimpleHTTPRequestHandler.do_GET fs self)
    as Hkept by (apply kept_when_exists; by eapply exists_of_resolve).
  rewrite Hkept, (super_existing_file _ _ _ Hfile).
  split_and!; [done..|]. intros Hplain.
  unfold file_answer, SimpleHTTPRequestHandler.use_cache. by rewrite Hplain.
Qed.

Lemma super_directory fs self :
  os_path_isdir (translate_path (request_path self)) fs = true →
  directory_answer self (SimpleHTTPRequestHandler.do_GET fs self).
Proof.
  intros Hdir. unfold SimpleHTTPRequestHandler.do_GET. rewrite Hdir.
  destruct (ends_with_slash (request_path self)) eqn:Hslash; simpl;
    [|by rewrite Hslash].
  assert (∀ index,
    os_path_isfile (os_path_join (translate_path (request_path self)) index)
      fs = true →
    index = "index.html" ∨ index = "index.htm" →
    directory_answer self
      match
        SimpleHTTPRequestHandler.open_rb
          (os_path_join (translate_path (request_path self)) index) fs
      with
      | Some d =>
          if SimpleHTTPRequestHandler.use_cache self
               (st_mtime fs
                  (components (translate_path (request_path self))
                     ++ [index]))
          then NotModified
          else OK (components (translate_path (request_path self))
                     ++ [index]) d
      | None => NotFound
      end) as Hindex.
  { intros index Hfile Hname.
    unfold SimpleHTTPRequestHandler.open_rb. unfold os_path_isfile in Hfile.
    destruct (resolve (os_path_join _ index) fs) as [[d|m]|]; try done.
    unfold SimpleHTTPRequestHandler.use_cache.
    destruct (if_modified_since self) as [ims|] eqn:Hims; simpl.
    - destruct (negb (if_none_match self) && (_ <=? ims)%Z)%bool; simpl.
      + by rewrite Hims.
      + by destruct Hname as [-> | ->]; [left | right].
    - by destruct Hname as [-> | ->]; [left | right]. }
  destruct (os_path_isfile (os_path_join _ "index.html") fs) eqn:Hhtml.
  - apply Hindex; [done | by left].
  - destruct (os_path_isfile (os_path_join _ "index.htm") fs) eqn:Hhtm.
    + apply Hindex; [done | by right].
    + unfold SimpleHTTPRequestHandler.list_directory.
      unfold os_path_isdir in Hdir.
      by destruct (resolve (translate_path (request_path self)) fs)
        as [[]|].
Qed.

(** C10: the fallback tests path existence, so a GET whose path is an
    existing directory is not rewritten; it reaches the static-file logic
    as it came, which redirects to the slash form, serves the directory's
    own index (304 in its place, to a conditional request), or lists the
    directory. *)
Theorem directory_not_rewritten fs self :
  os_path_isdir (translate_path (request_path self)) fs = true →
  SPAHandler.do_GET fs self = SimpleHTTPRequestHandler.do_GET fs self
  ∧ directory_answer self (SPAHandler.do_GET fs self).
Proof.
  intros Hdir.
  assert (SPAHandler.do_GET fs self = SimpleHTTPRequestHandler.do_GET fs self)
    as Hkept by (apply kept_when_exists; by apply isdir_exists).
  split; [done|]. rewrite Hkept. by apply super_directory.
Qed.

End HandlerFacts.

(** * Properties of the script *)

Lemma grows_refl m : grows m m.
Proof. intros c n Hc. eauto. Qed.

Lemma grows_trans m1 m2 m3 : grows m1 m2 → grows m2 m3 → grows m1 m3.
Proof.
  intros H12 H23 c n Hc.
  destruct (H12 c n Hc) as (n2 & Hc2 & Hk2).
  destruct (H23 c n2 Hc2) as (n3 & Hc3 & Hk3).
  exists n3. split; [done | congruence].
Qed.

Lemma grows_insert_fresh m c n : m !! c = None → grows m (<[c := n]> m).
Proof.
  intros Hnone c' n' Hc'. exists n'. split; [|done].
  rewrite lookup_insert_ne; [done | congruence].
Qed.

Lemma grows_insert_same_kind m c n n' :
  m !! c = Some n → is_file n' = is_file n → grows m (<[c := n']> m).
Proof.
  intros Hc Hkind c' n'' Hc'. destruct (decide (c = c')) as [<-|Hne].
  - exists n'. rewrite lookup_insert_eq. split; [done | congruence].
  - exists n''. by rewrite lookup_insert_ne.
Qed.

Lemma extract_at_kind walked p body n n' :
  extract_at walked p body n = inr n' → is_file n' = is_file n.
Proof.
  destruct p as [|c p'], n as [d|m]; simpl; try done.
  - destruct body; [|done]. by intros [= <-].
  - destruct body; [done|]. by intros [= <-].
  - destruct (m !! c) as [child|].
    + destruct (extract_at _ p' body child); [done|]. by intros [= <-].
    + by intros [= <-].
Qed.

Lemma extract_at_root walked p body m n' :
  extract_at walked p body (Dir m) = inr n' →
  ∃ m', n' = Dir m' ∧ grows m m' ∧ ∀ c, head p = Some c → is_Some (m' !! c).
Proof.
  destruct p as [|c p']; simpl.
  - destruct body; [done|]. intros [= <-]. exists m.
    split_and!; [done | apply grows_refl | done].
  - destruct (m !! c) as [child|] eqn:Hc.
    + destruct (extract_at _ p' body child) as [e|child'] eqn:Hchild; [done|].
      intros [= <-]. eexists. split_and!; [done | |].
      * eapply grows_insert_same_kind; [done|]. by eapply extract_at_kind.
      * intros ? [= <-]. rewrite lookup_insert_eq. eauto.
    + intros [= <-]. eexists. split_and!; [done | |].
      * by apply grows_insert_fresh.
      * intros ? [= <-]. rewrite lookup_insert_eq. eauto.
Qed.

Lemma bind_eq {A B} (c : M A) (k : A → M B) w :
  (c ≫= k) w =
  match c w with
  | (Ret a, w') => k a w'
  | (Raise e, w') => (Raise e, w')
  | (SysExit n, w') => (SysExit n, w')
  | (Forever, w') => (Forever, w')
  end.
Proof. reflexivity. Qed.

Lemma extract_to_spec p body m t :
  ends (on_fs (extract_to p body) (dir_world m t))
    (fun _ w' => ∃ m', w' = dir_world m' t ∧ grows m m'
                  ∧ ∀ c, head p = Some c → is_Some (m' !! c))
    (fun _ w' => w' = dir_world m t).
Proof.
  unfold on_fs, extract_to; simpl.
  destruct (extract_at [] p body (Dir m)) as [e|n'] eqn:Hat; simpl; [done|].
  apply extract_at_root in Hat as (m' & -> & Hgrows & Hhead). by exists m'.
Qed.

Lemma _extract_member_spec E i mb m t :
  ends (_extract_member E i mb (dir_world m t))
    (fun _ w' => ∃ m', w' = dir_world m' t ∧ grows m m'
                  ∧ ∀ c, head (member_name mb) = Some c → is_Some (m' !! c))
    (fun _ w' => ∃ m', w' = dir_world m' t ∧ grows m m').
Proof.
  unfold _extract_member.
  destruct (member_fault E i) as [[e partial]|]; simpl.
  - destruct partial as [d|], (member_body mb); simpl;
      try (exists m; split; [done | apply grows_refl]).
    rewrite bind_eq.
    pose proof (extract_to_spec (member_name mb) (Some d) m t) as Hspec.
    destruct (on_fs _ _) as [[[]| | |] w']; simpl in *; try done.
    + destruct Hspec as (m' & -> & Hgrows & _). by exists m'.
    + subst. exists m. split; [done | apply grows_refl].
  - pose proof (extract_to_spec (member_name mb) (member_body mb) m t) as Hspec.
    destruct (on_fs _ _) as [[[]| | |] w']; simpl in *; try done.
    subst. exists m. split; [done | apply grows_refl].
Qed.

Lemma grows_is_Some m m' c : grows m m' → is_Some (m !! c) → is_Some (m' !! c).
Proof. intros Hg [n Hn]. destruct (Hg c n Hn) as (n' & -> & _). eauto. Qed.

Lemma extract_from_spec E members : ∀ i m t,
  ends (extract_from E i members (dir_world m t))
    (fun _ w' => ∃ m', w' = dir_world m' t ∧ grows m m'
                  ∧ ∀ c, c ∈ top_names members → is_Some (m' !! c))
    (fun _ w' => ∃ m', w' = dir_world m' t ∧ grows m m').
Proof.
  induction members as [|mb rest IH]; intros i m t; simpl.
  - exists m. split_and!; [done | apply grows_refl |].
    intros c Hc. by apply elem_of_nil in Hc.
  - rewrite bind_eq.
    pose proof (_extract_member_spec E i mb m t) as Hone.
    destruct (_extract_member E i mb _) as [[[]| | |] w1]; simpl in *; try done.
    destruct Hone as (m1 & -> & Hg1 & Hhead).
    specialize (IH (S i) m1 t).
    destruct (extract_from E (S i) rest _) as [[[]| | |] w2]; simpl in *;
      try done.
    + destruct IH as (m2 & -> & Hg2 & Hrest). exists m2.
      split_and!; [done | by eapply grows_trans |].
      intros c Hc. unfold top_names in Hc. simpl in Hc.
      destruct (head (member_name mb)) as [c0|] eqn:Hc0.
      * apply elem_of_cons in Hc as [->|Hc]; [|by apply Hrest].
        eapply grows_is_Some; [done|]. by apply Hhead.
      * by apply Hrest.
    + destruct IH as (m2 & -> & Hg2). exists m2.
      split; [done | by eapply grows_trans].
Qed.

(** Extraction has no rollback of its own: when it raises, the members
    before the failing one have been extracted one after the other, and
    the world is the one the failing member left. *)
Lemma extract_from_stops E members : ∀ i w e w',
  extract_from E i members w = (Raise e, w') →
  ∃ k mb wk,
    members !! k = Some mb
    ∧ extract_from E i (take k members) w = (Ret tt, wk)
    ∧ _extract_member E (i + k) mb wk = (Raise e, w').
Proof.
  induction members as [|mb rest IH]; intros i w e w'; simpl; [done|].
  rewrite bind_eq.
  destruct (_extract_member E i mb w) as [[[]|e1| |] w1] eqn:Hone; try done.
  - intros Hrest.
    destruct (IH _ _ _ _ Hrest) as (k & mb' & wk & Hk & Htake & Hfail).
    exists (S k), mb', wk. split_and!; [done | |].
    + simpl. by rewrite bind_eq, Hone.
    + by rewrite Nat.add_succ_r.
  - intros [= -> ->]. exists 0, mb, w. split_and!; [done..|].
    by rewrite Nat.add_0_r.
Qed.

Lemma prologue_spec fs0 :
  prologue (World fs0 []) =
  match initial_entries fs0 with
  | Some m => (Ret tt, dir_world m [Print "Downloading LiteChat release..."])
  | None => (Raise (FileExistsError []), World fs0 [])
  end.
Proof. by destruct fs0 as [[]|]. Qed.

Lemma zip_is_dir_insert_file m d :
  zip_is_dir (<["litechat.zip" := File d]> m) = false.
Proof. unfold zip_is_dir. by rewrite lookup_insert_eq. Qed.

Lemma open_wb_zip m t d :
  on_fs (open_wb zip_path d) (dir_world m t) =
  if zip_is_dir m
  then (Raise (IsADirectoryError zip_path), dir_world m t)
  else (Ret tt, dir_world (<["litechat.zip" := File d]> m) t).
Proof.
  unfold on_fs, open_wb, zip_is_dir; simpl.
  by destruct (m !! "litechat.zip") as [[]|].
Qed.

Lemma urlretrieve_spec E m t :
  ends (urlretrieve E release_url (dir_world m t))
    (fun _ w' => ∃ d, urlopen E release_url = Downloaded d
                  ∧ zip_is_dir m = false
                  ∧ w' = dir_world (<["litechat.zip" := File d]> m) t)
    (fun _ w' => ∃ m', w' = dir_world m' t ∧ zip_is_dir m' = zip_is_dir m).
Proof.
  unfold urlretrieve. destruct (urlopen E release_url) as [d|e [d|]]; simpl.
  - rewrite open_wb_zip. destruct (zip_is_dir m) eqn:Hdir; simpl; eauto.
  - rewrite bind_eq, open_wb_zip. destruct (zip_is_dir m) eqn:Hdir; simpl.
    + eauto.
    + eexists. split; [done|]. apply zip_is_dir_insert_file.
  - eauto.
Qed.

Lemma fetch_spec E m t :
  ends (fetch E (dir_world m t))
    (fun _ w' => ∃ d, urlopen E release_url = Downloaded d
                  ∧ zip_is_dir m = false
                  ∧ w' = dir_world (<["litechat.zip" := File d]> m)
                           (t ++ [Print "Download complete. Extracting..."]))
    (fun _ w' => ∃ m', w' = dir_world m' t ∧ zip_is_dir m' = zip_is_dir m).
Proof.
  unfold fetch. rewrite bind_eq.
  pose proof (urlretrieve_spec E m t) as Hurl.
  destruct (urlretrieve E _ _) as [[[]| | |] w']; simpl in *; try done.
  destruct Hurl as (d & Hd & Hdir & ->). by exists d.
Qed.

Lemma extractall_spec E m t d :
  m !! "litechat.zip" = Some (File d) →
  ends (extractall E (dir_world m t))
    (fun _ w' => ∃ members m', ZipFile E d = inr members
                  ∧ w' = dir_world m' t ∧ grows m m'
                  ∧ ∀ c, c ∈ top_names members → is_Some (m' !! c))
    (fun _ w' => ∃ m', w' = dir_world m' t ∧ grows m m').
Proof.
  intros Hzip. unfold extractall. rewrite bind_eq.
  unfold open_archive, stat; simpl. rewrite Hzip; simpl.
  destruct (ZipFile E d) as [e|members]; simpl.
  - exists m. split; [done | apply grows_refl].
  - pose proof (extract_from_spec E members 0 m t) as Hall.
    destruct (extract_from E 0 members _) as [[[]| | |] w']; simpl in *;
      try done.
    destruct Hall as (m' & -> & Hgrows & Hnames). by exists members, m'.
Qed.

Lemma grows_file m m' c d :
  grows m m' → m !! c = Some (File d) → ∃ d', m' !! c = Some (File d').
Proof.
  intros Hg Hc. destruct (Hg c _ Hc) as ([d'|] & Hc' & Hkind); [eauto | done].
Qed.

Lemma os_remove_zip m t d :
  m !! "litechat.zip" = Some (File d) →
  on_fs (os_remove zip_path) (dir_world m t)
  = (Ret tt, dir_world (delete "litechat.zip" m) t).
Proof. intros Hzip. unfold on_fs, os_remove; simpl. by rewrite Hzip. Qed.

Lemma unpack_spec E m t d :
  m !! "litechat.zip" = Some (File d) →
  ends (unpack E (dir_world m t))
    (fun _ w' => ∃ members m', ZipFile E d = inr members ∧ grows m m'
                  ∧ (∀ c, c ∈ top_names members → is_Some (m' !! c))
                  ∧ w' = dir_world (delete "litechat.zip" m')
                           (t ++ [Print "Extraction complete."]))
    (fun _ w' => ∃ m', w' = dir_world m' t ∧ grows m m').
Proof.
  intros Hzip. unfold unpack. rewrite bind_eq.
  pose proof (extractall_spec E m t d Hzip) as Hall.
  destruct (extractall E _) as [[[]| | |] w']; simpl in *; try done.
  destruct Hall as (members & m' & Hparse & -> & Hgrows & Hnames).
  destruct (grows_file _ _ _ _ Hgrows Hzip) as [d' Hzip'].
  rewrite bind_eq, (os_remove_zip _ _ _ Hzip'); simpl.
  by exists members, m'.
Qed.

Lemma serve_spec E a m t :
  match serve E a (dir_world m t) with
  | (Raise _, w') =>
      w' = dir_world m t
      ∨ w' = dir_world m (t ++ [Listen (bind_address a) (port a)])
  | (Forever, w') =>
      ∃ ip, gethostbyname E (gethostname E) = inr ip
            ∧ w' = dir_world m
                     (t ++ [Listen (bind_address a) (port a)]
                        ++ [Print ("LiteChat is running at "
                                   +:+ access_message a ip)])
  | _ => False
  end.
Proof.
  unfold serve, HTTPServer, socket_gethostbyname. rewrite bind_eq; simpl.
  fold (bind_address a).
  destruct (server_bind E _ _); simpl; [by left|].
  destruct (gethostbyname E _) as [e|ip]; simpl; [by right|].
  exists ip. split; [done|]. unfold dir_world. by rewrite <- app_assoc.
Qed.

Lemma exists_zip m t :
  exists_ zip_path (dir_world m t)
  = (Ret (bool_decide (is_Some (m !! "litechat.zip"))), dir_world m t).
Proof.
  unfold exists_, os_path_exists, resolve, stat; simpl.
  by destruct (m !! "litechat.zip") as [[]|].
Qed.

Lemma handler_spec E e m t :
  handler E e (dir_world m t) =
  if zip_is_dir m
  then (Raise (IsADirectoryError zip_path), dir_world m t)
  else (SysExit 1, dir_world (delete "litechat.zip" m)
                     (t ++ [Print ("Error: " +:+ str E e)])).
Proof.
  unfold handler, if_. rewrite !bind_eq, exists_zip. unfold zip_is_dir.
  destruct (m !! "litechat.zip") as [[d|m0]|] eqn:Hzip; simpl.
  - by rewrite (os_remove_zip _ _ _ Hzip).
  - unfold on_fs, os_remove; simpl. by rewrite Hzip.
  - by rewrite delete_id.
Qed.

Lemma bind_assoc {A B C} (c : M A) (k : A → M B) (k' : B → M C) w :
  ((c ≫= k) ≫= k') w = (c ≫= (fun x => k x ≫= k')) w.
Proof. rewrite !bind_eq. by destruct (c w) as [[]]. Qed.

(** What lines 28 to 37 do to a world whose working directory is there:
    they raise, the archive path being a directory only if it was one
    before, or leave the unpacked tree without the archive. *)
Lemma stage_spec E m t :
  ends ((fetch E;; unpack E) (dir_world m t))
    (fun _ w' => ∃ d members m',
        urlopen E release_url = Downloaded d ∧ ZipFile E d = inr members
        ∧ zip_is_dir m = false
        ∧ grows (<["litechat.zip" := File d]> m) m'
        ∧ (∀ c, c ∈ top_names members → is_Some (m' !! c))
        ∧ w' = dir_world (delete "litechat.zip" m')
                 (t ++ [Print "Download complete. Extracting...";
                        Print "Extraction complete."]))
    (fun _ w' => ∃ m' t', w' = dir_world m' (t ++ t')
        ∧ zip_is_dir m' = zip_is_dir m
        ∧ ∀ ev, ev ∈ t' → ∃ line, ev = Print line).
Proof.
  rewrite bind_eq. pose proof (fetch_spec E m t) as Hfetch.
  destruct (fetch E _) as [[[]| | |] w1]; simpl in *; try done.
  - destruct Hfetch as (d & Hd & Hdir & ->).
    pose proof (unpack_spec E (<["litechat.zip" := File d]> m)
                  (t ++ [Print "Download complete. Extracting..."]) d
                  (lookup_insert_eq _ _ _)) as Hunpack.
    destruct (unpack E _) as [[[]| | |] w2]; simpl in *; try done.
    + destruct Hunpack as (members & m' & Hparse & Hgrows & Hnames & ->).
      exists d, members, m'. split_and!; try done. by rewrite <- app_assoc.
    + destruct Hunpack as (m' & -> & Hgrows).
      destruct (grows_file _ _ _ _ Hgrows (lookup_insert_eq _ _ _)) as [d' Hz].
      exists m', [Print "Download complete. Extracting..."].
      split; [done|]. split; [|only_printed].
      rewrite Hdir. unfold zip_is_dir. by rewrite Hz.
  - destruct Hfetch as (m' & -> & Hdir). exists m', [].
    split; [by rewrite app_nil_r|]. split; [done | only_printed].
Qed.

Lemma zip_is_dir_delete m : zip_is_dir (delete "litechat.zip" m) = false.
Proof. unfold zip_is_dir. by rewrite lookup_delete_eq. Qed.

(** The same for the whole [try] block, which either raises or ends up
    serving. *)
Lemma body_spec E a m t :
  match (fetch E;; unpack E;; serve E a) (dir_world m t) with
  | (Raise _, w') =>
      ∃ m' t', w' = dir_world m' (t ++ t')
        ∧ zip_is_dir m' = zip_is_dir m
        ∧ ∀ ev, ev ∈ t' → ev = Listen (bind_address a) (port a)
                           ∨ ∃ line, ev = Print line
  | (Forever, w') =>
      ∃ d members m' ip,
        urlopen E release_url = Downloaded d ∧ ZipFile E d = inr members
        ∧ zip_is_dir m = false
        ∧ grows (<["litechat.zip" := File d]> m) m'
        ∧ (∀ c, c ∈ top_names members → is_Some (m' !! c))
        ∧ gethostbyname E (gethostname E) = inr ip
        ∧ w' = dir_world (delete "litechat.zip" m')
                 (t ++ [Print "Download complete. Extracting...";
                        Print "Extraction complete.";
                        Listen (bind_address a) (port a);
                        Print ("LiteChat is running at "
                               +:+ access_message a ip)])
  | _ => False
  end.
Proof.
  rewrite <- bind_assoc, bind_eq. pose proof (stage_spec E m t) as Hstage.
  destruct ((fetch E;; unpack E) _) as [[[]| | |] w1]; simpl in *; try done.
  - destruct Hstage as (d & members & m' & Hd & Hparse & Hdir & Hgrows
                        & Hnames & ->).
    pose proof (serve_spec E a (delete "litechat.zip" m')
                  (t ++ [Print "Download complete. Extracting...";
                         Print "Extraction complete."])) as Hserve.
    destruct (serve E a _) as [[[]| | |] w2]; simpl in *; try done.
    + destruct Hserve as [->| ->].
      * eexists _, _. split; [done|].
        split; [by rewrite zip_is_dir_delete|]. only_printed.
      * exists (delete "litechat.zip" m'),
          [Print "Download complete. Extracting...";
           Print "Extraction complete."; Listen (bind_address a) (port a)].
        split; [by rewrite <- !app_assoc|].
        split; [by rewrite zip_is_dir_delete|]. only_printed.
    + destruct Hserve as (ip & Hip & ->). exists d, members, m', ip.
      split_and!; try done. by rewrite <- !app_assoc.
  - destruct Hstage as (m' & t' & -> & Hdir & Hprinted).
    exists m', t'. split_and!; try done.
    intros ev Hev. right. by apply Hprinted.
Qed.

Lemma run_eq E a fs0 :
  run E a fs0 =
  match initial_entries fs0 with
  | None => Run fs0 [] (Uncaught (FileExistsError []))
  | Some m =>
      let w := dir_world m [Print "Downloading LiteChat release..."] in
      match (fetch E;; unpack E;; serve E a) w with
      | (Raise e, w') => finish (handler E e w')
      | rw => finish rw
      end
  end.
Proof.
  unfold run, main. rewrite bind_eq, prologue_spec.
  destruct (initial_entries fs0) as [m|]; [|done]. unfold try_except.
  by destruct ((fetch E;; unpack E;; serve E a) _) as [[[]| | |] w'].
Qed.

Lemma prologue_returns fs0 w1 :
  prologue (World fs0 []) = (Ret tt, w1) →
  ∃ m, initial_entries fs0 = Some m
       ∧ w1 = dir_world m [Print "Downloading LiteChat release..."].
Proof.
  rewrite prologue_spec. destruct (initial_entries fs0) as [m|]; [|done].
  intros [= <-]. by exists m.
Qed.

Lemma isdir_initial fs0 m :
  initial_entries fs0 = Some m →
  os_path_isdir (Local zip_path false) fs0 = zip_is_dir m.
Proof.
  unfold os_path_isdir, resolve, stat, zip_is_dir.
  destruct fs0 as [[d|m0]|]; simpl; intros [= <-]; [|done].
  by destruct (m0 !! "litechat.zip") as [[]|].
Qed.

Lemma exists_deleted m :
  os_path_exists (Local zip_path false) (Some (Dir (delete "litechat.zip" m)))
  = false.
Proof.
  unfold os_path_exists, resolve, stat; simpl. by rewrite lookup_delete_eq.
Qed.

Lemma isfile_zip m d :
  m !! "litechat.zip" = Some (File d) →
  os_path_isfile (Local zip_path false) (Some (Dir m)) = true.
Proof.
  intros Hzip. unfold os_path_isfile, resolve, stat; simpl. by rewrite Hzip.
Qed.

Lemma stat_delete_file m c d p :
  m !! c = Some (File d) → p ≠ [] → p ≠ [c] →
  stat p (Some (Dir (delete c m))) = stat p (Some (Dir m)).
Proof.
  intros Hc Hroot Hne. destruct p as [|c' p']; [done|]. simpl.
  destruct (decide (c' = c)) as [->|Hother].
  - rewrite lookup_delete_eq, Hc. by destruct p'.
  - by rewrite lookup_delete_ne.
Qed.

(** A run whose extraction fails: the handler finds the archive, unlinks
    it, reports and exits. *)
Lemma extraction_fails_run E a fs0 e w :
  extraction_fails E fs0 e w →
  ∃ m d, fs w = Some (Dir m) ∧ m !! "litechat.zip" = Some (File d)
    ∧ run E a fs0
      = Run (Some (Dir (delete "litechat.zip" m)))
          (trace w ++ [Print ("Error: " +:+ str E e)]) (Exited 1).
Proof.
  intros (w1 & w2 & Hprologue & Hfetch & Hextract).
  destruct (prologue_returns _ _ Hprologue) as (m0 & Hm0 & ->).
  pose proof (fetch_spec E m0 [Print "Downloading LiteChat release..."])
    as Hspec.
  rewrite Hfetch in Hspec. destruct Hspec as (d & Hd & Hdir & ->).
  pose proof (extractall_spec E _
                ([Print "Downloading LiteChat release..."]
                   ++ [Print "Download complete. Extracting..."]) d
                (lookup_insert_eq m0 "litechat.zip" (File d))) as Hspec.
  rewrite Hextract in Hspec. destruct Hspec as (m & -> & Hgrows).
  destruct (grows_file _ _ _ _ Hgrows (lookup_insert_eq _ _ _)) as [d' Hzip].
  exists m, d'. split_and!; [done..|].
  rewrite run_eq, Hm0; simpl. rewrite bind_eq, Hfetch.
  unfold unpack at 1. rewrite !bind_eq, Hextract, handler_spec.
  unfold zip_is_dir. by rewrite Hzip.
Qed.

(** C3: when the download went through and extraction raises, the archive,
    which is there at that moment, is unlinked by the handler and the
    process exits with status 1. *)
Theorem extraction_failure_cleans_up E a fs0 e w :
  extraction_fails E fs0 e w →
  os_path_isfile (Local zip_path false) (fs w) = true
  ∧ os_path_exists (Local zip_path false) (final_fs (run E a fs0)) = false
  ∧ exit_status (run E a fs0) = Some 1%Z.
Proof.
  intros Hfails.
  destruct (extraction_fails_run E a fs0 e w Hfails)
    as (m & d & -> & Hzip & ->).
  split_and!; [by eapply isfile_zip | apply exists_deleted | done].
Qed.

(** C9: when extraction fails partway, the handler takes away the archive
    and nothing else: every other path holds after the run what
    extraction had left there.  What extraction had left is what the
    members before the failing one put there, then the failing member. *)
Theorem partial_extraction_left_in_place E a fs0 e w :
  extraction_fails E fs0 e w →
  os_remove zip_path (fs w) = inr (final_fs (run E a fs0))
  ∧ (∀ p, p ≠ [] → p ≠ zip_path →
          stat p (final_fs (run E a fs0)) = stat p (fs w))
  ∧ ∀ members w2,
      extract_from E 0 members w2 = (Raise e, w) →
      ∃ k mb wk,
        members !! k = Some mb
        ∧ extract_from E 0 (take k members) w2 = (Ret tt, wk)
        ∧ _extract_member E k mb wk = (Raise e, w).
Proof.
  intros Hfails. split_and!.
  - destruct (extraction_fails_run E a fs0 e w Hfails)
      as (m & d & Hfs & Hzip & ->).
    rewrite Hfs. simpl. by rewrite Hzip.
  - destruct (extraction_fails_run E a fs0 e w Hfails)
      as (m & d & Hfs & Hzip & ->).
    rewrite Hfs. intros p Hroot Hne. by eapply stat_delete_file.
  - intros members w2 Hraise. by apply extract_from_stops in Hraise.
Qed.

(** Every run, by cases: the working directory cannot be created; the
    [try] block raises and the handler takes over; the server serves. *)
Lemma run_cases E a fs0 :
  match initial_entries fs0 with
  | None => run E a fs0 = Run fs0 [] (Uncaught (FileExistsError []))
  | Some m =>
      let t0 := [Print "Downloading LiteChat release..."] in
      match (fetch E;; unpack E;; serve E a) (dir_world m t0) with
      | (Raise e, _) =>
          ∃ m' t',
            (∀ ev, ev ∈ t' → ev = Listen (bind_address a) (port a)
                              ∨ ∃ line, ev = Print line)
            ∧ zip_is_dir m' = zip_is_dir m
            ∧ run E a fs0 =
              if zip_is_dir m
              then Run (Some (Dir m')) (t0 ++ t')
                     (Uncaught (IsADirectoryError zip_path))
              else Run (Some (Dir (delete "litechat.zip" m')))
                     ((t0 ++ t') ++ [Print ("Error: " +:+ str E e)])
                     (Exited 1)
      | (Forever, _) =>
          ∃ d members m' ip,
            urlopen E release_url = Downloaded d ∧ ZipFile E d = inr members
            ∧ zip_is_dir m = false
            ∧ grows (<["litechat.zip" := File d]> m) m'
            ∧ (∀ c, c ∈ top_names members → is_Some (m' !! c))
            ∧ gethostbyname E (gethostname E) = inr ip
            ∧ run E a fs0 =
              Run (Some (Dir (delete "litechat.zip" m')))
                (t0 ++ [Print "Download complete. Extracting...";
                        Print "Extraction complete.";
                        Listen (bind_address a) (port a);
                        Print ("LiteChat is running at "
                               +:+ access_message a ip)])
                Serving
      | _ => False
      end
  end.
Proof.
  rewrite run_eq. destruct (initial_entries fs0) as [m|]; [|done]. simpl.
  pose proof (body_spec E a m [Print "Downloading LiteChat release..."])
    as Hbody.
  destruct ((fetch E;; unpack E;; serve E a) _) as [[[]|e| |] w'];
    simpl in *; try done.
  - destruct Hbody as (m' & t' & -> & Hdir & Hknown). exists m', t'.
    split_and!; [done..|]. rewrite handler_spec, Hdir.
    by destruct (zip_is_dir m).
  - destruct Hbody as (d & members & m' & ip & Hd & Hparse & Hdir & Hgrows
                       & Hnames & Hip & ->).
    by exists d, members, m', ip.
Qed.

(** C4: the archive does not outlive the fetch and extract stage.  No run
    ends with a regular file at the archive path; unless that path was a
    directory to begin with, nothing at all is left there; and when the
    stage returns normally the path is already free at that point. *)
Theorem archive_never_outlives E a fs0 :
  os_path_isfile (Local zip_path false) (final_fs (run E a fs0)) = false
  ∧ (os_path_isdir (Local zip_path false) fs0 = false →
     os_path_exists (Local zip_path false) (final_fs (run E a fs0)) = false)
  ∧ ∀ w1 w2,
      prologue (World fs0 []) = (Ret tt, w1) →
      (fetch E;; unpack E) w1 = (Ret tt, w2) →
      os_path_exists (Local zip_path false) (fs w2) = false.
Proof.
  assert (∀ m, os_path_exists (Local zip_path false)
                 (Some (Dir (delete "litechat.zip" m))) = false
               → os_path_isfile (Local zip_path false)
                   (Some (Dir (delete "litechat.zip" m))) = false)
    as Hweaker.
  { intros m. unfold os_path_exists, os_path_isfile.
    by destruct (resolve _ _) as [[]|]. }
  split_and!.
  - pose proof (run_cases E a fs0) as Hrun.
    destruct (initial_entries fs0) as [m|] eqn:Hm.
    + simpl in Hrun.
      destruct ((fetch E;; unpack E;; serve E a) _) as [[[]|e| |] w'];
        try done.
      * destruct Hrun as (m' & t' & _ & Hdir & ->).
        destruct (zip_is_dir m) eqn:Hdir0; simpl.
        -- unfold os_path_isfile, resolve, stat; simpl.
           unfold zip_is_dir in Hdir.
           by destruct (m' !! "litechat.zip") as [[]|].
        -- apply Hweaker, exists_deleted.
      * destruct Hrun as (d & members & m' & ip & _ & _ & _ & _ & _ & _ & ->).
        apply Hweaker, exists_deleted.
    + rewrite Hrun; simpl. by destruct fs0 as [[]|].
  - intros Hnodir. pose proof (run_cases E a fs0) as Hrun.
    destruct (initial_entries fs0) as [m|] eqn:Hm.
    + rewrite (isdir_initial _ _ Hm) in Hnodir. simpl in Hrun.
      destruct ((fetch E;; unpack E;; serve E a) _) as [[[]|e| |] w'];
        try done.
      * destruct Hrun as (m' & t' & _ & _ & ->). rewrite Hnodir.
        apply exists_deleted.
      * destruct Hrun as (d & members & m' & ip & _ & _ & _ & _ & _ & _ & ->).
        apply exists_deleted.
    + rewrite Hrun; simpl. by destruct fs0 as [[]|].
  - intros w1 w2 Hprologue Hstage.
    destruct (prologue_returns _ _ Hprologue) as (m & Hm & ->).
    pose proof (stage_spec E m [Print "Downloading LiteChat release..."])
      as Hspec.
    rewrite Hstage in Hspec.
    destruct Hspec as (d & members & m' & _ & _ & _ & _ & _ & ->).
    apply exists_deleted.
Qed.

(** C5, as amended: when the working directory is there and the [try]
    block raises [e], the process exits with status 1; unless the archive
    path is a directory, its last line on the standard output is
    [Error: e] and nothing goes to the standard error stream.  When the
    block does not raise, the process serves and never exits by itself. *)
Theorem failure_reported_on_stdout E a fs0 w1 :
  prologue (World fs0 []) = (Ret tt, w1) →
  match (fetch E;; unpack E;; serve E a) w1 with
  | (Raise e, _) =>
      exit_status (run E a fs0) = Some 1%Z
      ∧ (os_path_isdir (Local zip_path false) fs0 = false →
         last (stdout (run E a fs0)) = Some ("Error: " +:+ str E e)
         ∧ stderr (run E a fs0) = [])
  | _ =>
      serving (run E a fs0)
      ∧ exit_status (run E a fs0) = None
      ∧ stderr (run E a fs0) = []
  end.
Proof.
  intros Hprologue.
  destruct (prologue_returns _ _ Hprologue) as (m & Hm & ->).
  rewrite (isdir_initial _ _ Hm).
  pose proof (run_cases E a fs0) as Hrun. rewrite Hm in Hrun. simpl in Hrun.
  destruct ((fetch E;; unpack E;; serve E a) _) as [[[]|e| |] w']; try done.
  - destruct Hrun as (m' & t' & _ & _ & ->). split.
    + by destruct (zip_is_dir m).
    + intros ->. split; [|done].
      unfold stdout; cbn [events]. rewrite app_comm_cons, omap_app.
      apply last_snoc.
  - by destruct Hrun as (d & members & m' & ip & _ & _ & _ & _ & _ & _ & ->).
Qed.

(** C6: the only address the server is ever bound to is [localhost] when
    [--host] is unset and [0.0.0.0] when it is set, on the port of the
    command line; a run that serves has bound it. *)
Theorem bound_to_loopback_unless_host E a fs0 :
  (∀ address tcp_port,
      Listen address tcp_port ∈ events (run E a fs0) →
      address = (if host a then "0.0.0.0" else "localhost")
      ∧ tcp_port = port a)
  ∧ (serving (run E a fs0) →
     Listen (if host a then "0.0.0.0" else "localhost") (port a)
       ∈ events (run E a fs0)).
Proof.
  fold (bind_address a). pose proof (run_cases E a fs0) as Hrun.
  destruct (initial_entries fs0) as [m|].
  - simpl in Hrun.
    destruct ((fetch E;; unpack E;; serve E a) _) as [[[]|e| |] w']; try done.
    + destruct Hrun as (m' & t' & Hknown & _ & ->). split.
      * intros address tcp_port Hin.
        assert (Listen address tcp_port ∈ t') as Hin'.
        { destruct (zip_is_dir m); simpl in Hin;
            apply elem_of_cons in Hin as [?|Hin]; try done.
          apply elem_of_app in Hin as [Hin|Hin]; [done|].
          by apply list_elem_of_singleton in Hin. }
        destruct (Hknown _ Hin') as [[= -> ->]|[line ?]]; done.
      * by destruct (zip_is_dir m).
    + destruct Hrun as (d & members & m' & ip & _ & _ & _ & _ & _ & _ & ->).
      split.
      * intros address tcp_port Hin; simpl in Hin.
        repeat (apply elem_of_cons in Hin as [Hin|Hin]; try done).
        -- by injection Hin as -> ->.
        -- by apply elem_of_nil in Hin.
      * intros _; simpl. rewrite !elem_of_cons. tauto.
  - rewrite Hrun. split; [|done]. intros ? ? Hin. by apply elem_of_nil in Hin.
Qed.

(** C7: a run that reaches [serve_forever] has printed four lines, the
    last one being the only access message; it shows the address that
    [gethostbyname] resolved when [--host] is set, and [localhost]
    otherwise. *)
Theorem access_message_printed_once E a fs0 :
  serving (run E a fs0) →
  ∃ ip,
    gethostbyname E (gethostname E) = inr ip
    ∧ stdout (run E a fs0) =
      ["Downloading LiteChat release...";
       "Download complete. Extracting...";
       "Extraction complete.";
       "LiteChat is running at " +:+
         (if host a
          then "http://" +:+ ip +:+ ":" +:+ pretty (port a)
               +:+ " (accessible from other devices)"
          else "http://localhost:" +:+ pretty (port a)
               +:+ " (local access only)")]
    ∧ length (List.filter is_access_line (stdout (run E a fs0))) = 1.
Proof.
  intros Hserving. pose proof (run_cases E a fs0) as Hrun.
  destruct (initial_entries fs0) as [m|]; [|by rewrite Hrun in Hserving].
  simpl in Hrun.
  destruct ((fetch E;; unpack E;; serve E a) _) as [[[]|e| |] w']; try done.
  - destruct Hrun as (m' & t' & _ & _ & Hrun). rewrite Hrun in Hserving.
    by destruct (zip_is_dir m).
  - destruct Hrun as (d & members & m' & ip & _ & _ & _ & _ & _ & Hip & ->).
    exists ip. split_and!; [done | reflexivity |].
    reflexivity.
Qed.

Lemma run_after_stage E a fs0 w1 w2 :
  prologue (World fs0 []) = (Ret tt, w1) →
  (fetch E;; unpack E) w1 = (Ret tt, w2) →
  final_fs (run E a fs0) = fs w2.
Proof.
  intros Hprologue Hstage.
  destruct (prologue_returns _ _ Hprologue) as (m0 & Hm0 & ->).
  pose proof (stage_spec E m0 [Print "Downloading LiteChat release..."])
    as Hspec.
  rewrite Hstage in Hspec.
  destruct Hspec as (d & members & m' & _ & _ & _ & _ & _ & ->).
  rewrite run_eq, Hm0; simpl. rewrite <- bind_assoc, bind_eq, Hstage.
  pose proof (serve_spec E a (delete "litechat.zip" m')
                ([Print "Downloading LiteChat release..."] ++
                 [Print "Download complete. Extracting...";
                  Print "Extraction complete."])) as Hserve.
  destruct (serve E a _) as [[[]|e| |] w3]; try done.
  - destruct Hserve as [->| ->]; rewrite handler_spec, zip_is_dir_delete;
      simpl; by rewrite delete_id by apply lookup_delete_eq.
  - by destruct Hserve as (ip & _ & ->).
Qed.

(** C8, as amended: when the fetch and extract stage returns normally, the
    working directory exists, the archive is gone from it, and it holds
    the top-level name of every archive entry and every name it held
    before, the archive's own name apart; it stays so to the end of the
    run.  It is therefore non-empty unless the archive had no such entry
    and the directory nothing else. *)
Theorem unpacked_tree_in_place E fs0 w1 w2 :
  prologue (World fs0 []) = (Ret tt, w1) →
  (fetch E;; unpack E) w1 = (Ret tt, w2) →
  ∃ m0 d members m,
    initial_entries fs0 = Some m0
    ∧ urlopen E release_url = Downloaded d ∧ ZipFile E d = inr members
    ∧ fs w2 = Some (Dir m)
    ∧ m !! "litechat.zip" = None
    ∧ (∀ c, c ≠ "litechat.zip" →
            c ∈ top_names members ∨ is_Some (m0 !! c) → is_Some (m !! c))
    ∧ ∀ a, final_fs (run E a fs0) = fs w2.
Proof.
  intros Hprologue Hstage.
  assert (∀ a, final_fs (run E a fs0) = fs w2) as Hfinal
    by (intros a; by eapply run_after_stage).
  destruct (prologue_returns _ _ Hprologue) as (m0 & Hm0 & ->).
  pose proof (stage_spec E m0 [Print "Downloading LiteChat release..."])
    as Hspec.
  rewrite Hstage in Hspec.
  destruct Hspec as (d & members & m' & Hd & Hparse & _ & Hgrows & Hnames & ->).
  exists m0, d, members, (delete "litechat.zip" m').
  split_and!; [done.. | apply lookup_delete_eq | | done].
  intros c Hc Hfrom. rewrite lookup_delete_ne by done.
  destruct Hfrom as [Hmember|Hbefore]; [by apply Hnames|].
  eapply grows_is_Some; [done|]. by rewrite lookup_insert_ne.
Qed.

(** * The statements on sample runs *)

Lemma missing_path_falls_back_witness :
  os_path_exists (@translate_path posix_urls "/chat/42") site = false
  ∧ @SPAHandler.do_GET posix_urls site (GET "/chat/42")
    = @SimpleHTTPRequestHandler.do_GET posix_urls site (GET "/index.html")
  ∧ @SPAHandler.do_GET posix_urls site (GET "/chat/42")
    = @SPAHandler.do_GET posix_urls site (GET "/index.html").
Proof.
  split; [reflexivity|].
  apply (@missing_path_falls_back posix_urls site (GET "/chat/42")).
  reflexivity.
Defined.

(** [/assets/] is no regular file of the site, yet it is answered with a
    listing of that directory and not as [/index.html] is. *)
Lemma fallback_skips_directories :
  os_path_isfile (@translate_path posix_urls "/assets/") site = false
  ∧ @SPAHandler.do_GET posix_urls site (GET "/assets/")
    ≠ @SPAHandler.do_GET posix_urls site (GET "/index.html").
Proof. split; [reflexivity|]. intros Heq. vm_compute in Heq. discriminate. Qed.

(** [/assets/app.js] is a regular file of the site, yet a browser that
    holds a copy as recent as the file is answered 304, without the
    bytes. *)
Lemma fresh_copy_gets_no_bytes :
  resolve (@translate_path posix_urls "/assets/app.js") site
  = Some (File script)
  ∧ @SPAHandler.do_GET posix_urls site
      (GET_since "/assets/app.js" 1700000000)
    = NotModified
  ∧ @SPAHandler.do_GET posix_urls site
      (GET_since "/assets/app.js" 1700000000)
    ≠ OK ["assets"; "app.js"] script.
Proof. split_and!; [reflexivity | reflexivity | discriminate]. Qed.

Lemma existing_file_served_witness :
  resolve (@translate_path posix_urls "/assets/app.js") site
  = Some (File script)
  ∧ if_modified_since (GET "/assets/app.js") = None
  ∧ @SPAHandler.do_GET posix_urls site (GET "/assets/app.js")
    = @SimpleHTTPRequestHandler.do_GET posix_urls site (GET "/assets/app.js")
  ∧ @SPAHandler.do_GET posix_urls site (GET "/assets/app.js")
    = OK ["assets"; "app.js"] script.
Proof.
  split; [reflexivity|]. split; [reflexivity|].
  destruct (@existing_file_served posix_urls site (GET "/assets/app.js")
              script eq_refl) as (Hkept & _ & Hplain).
  split; [exact Hkept | exact (Hplain eq_refl)].
Defined.

Lemma directory_not_rewritten_witness :
  os_path_isdir (@translate_path posix_urls "/assets/") site = true
  ∧ @SPAHandler.do_GET posix_urls site (GET "/assets/")
    = @SimpleHTTPRequestHandler.do_GET posix_urls site (GET "/assets/")
  ∧ @directory_answer posix_urls (GET "/assets/")
      (@SPAHandler.do_GET posix_urls site (GET "/assets/")).
Proof.
  split; [reflexivity|].
  apply (@directory_not_rewritten posix_urls site (GET "/assets/")).
  reflexivity.
Defined.

Lemma disk_full_fails_extraction :
  extraction_fails disk_full None
    (Exception "[Errno 28] No space left on device") half_unpacked.
Proof.
  exists downloading,
    (World (Some (Dir {[ "litechat.zip" := File zipped ]}))
       [Print "Downloading LiteChat release...";
        Print "Download complete. Extracting..."]).
  split_and!; vm_compute; reflexivity.
Defined.

Lemma extraction_failure_cleans_up_witness :
  extraction_fails disk_full None
    (Exception "[Errno 28] No space left on device") half_unpacked
  ∧ os_path_isfile (Local zip_path false) (fs half_unpacked) = true
  ∧ os_path_exists (Local zip_path false)
      (final_fs (run disk_full quiet None)) = false
  ∧ exit_status (run disk_full quiet None) = Some 1%Z.
Proof.
  split; [exact disk_full_fails_extraction|].
  exact (extraction_failure_cleans_up disk_full quiet None _ _
           disk_full_fails_extraction).
Defined.

Lemma partial_extraction_left_in_place_witness :
  extraction_fails disk_full None
    (Exception "[Errno 28] No space left on device") half_unpacked
  ∧ stat ["index.html"] (final_fs (run disk_full quiet None))
    = Some (File html).
Proof.
  split; [exact disk_full_fails_extraction|].
  destruct (partial_extraction_left_in_place disk_full quiet None _ _
              disk_full_fails_extraction) as (_ & Hframe & _).
  rewrite (Hframe ["index.html"]); [reflexivity | discriminate | discriminate].
Defined.

Lemma archive_never_outlives_witness :
  os_path_isdir (Local zip_path false) None = false
  ∧ os_path_exists (Local zip_path false)
      (final_fs (run disk_full exposed None)) = false.
Proof.
  split; [reflexivity|].
  apply (archive_never_outlives disk_full exposed None). reflexivity.
Defined.

(** With the network down the run exits with status 1, its message is on
    the standard output and the standard error stream stays empty. *)
Lemma error_message_goes_to_stdout :
  ((fetch offline;; unpack offline;; serve offline quiet) downloading).1
  = Raise (Exception "<urlopen error timed out>")
  ∧ exit_status (run offline quiet None) = Some 1%Z
  ∧ stdout (run offline quiet None)
    = ["Downloading LiteChat release...";
       "Error: <urlopen error timed out>"]
  ∧ stderr (run offline quiet None) = [].
Proof. split_and!; reflexivity. Qed.

Lemma failure_reported_on_stdout_witness :
  prologue (World None []) = (Ret tt, downloading)
  ∧ os_path_isdir (Local zip_path false) None = false
  ∧ exit_status (run offline quiet None) = Some 1%Z
  ∧ last (stdout (run offline quiet None))
    = Some "Error: <urlopen error timed out>"
  ∧ stderr (run offline quiet None) = [].
Proof.
  split; [reflexivity|]. split; [reflexivity|].
  destruct (failure_reported_on_stdout offline quiet None downloading eq_refl)
    as [Hstatus Hmessage].
  split; [exact Hstatus | exact (Hmessage eq_refl)].
Defined.

Lemma bound_to_loopback_unless_host_witness :
  serving (run fine quiet None)
  ∧ Listen "localhost" 3000 ∈ events (run fine quiet None).
Proof.
  split; [reflexivity|].
  apply (bound_to_loopback_unless_host fine quiet None). reflexivity.
Defined.

Lemma access_message_printed_once_witness :
  serving (run fine exposed None)
  ∧ ∃ ip,
      gethostbyname fine (gethostname fine) = inr ip
      ∧ stdout (run fine exposed None) =
        ["Downloading LiteChat release...";
         "Download complete. Extracting...";
         "Extraction complete.";
         "LiteChat is running at " +:+
           ("http://" +:+ ip +:+ ":" +:+ pretty (port exposed)
            +:+ " (accessible from other devices)")]
      ∧ length (List.filter is_access_line (stdout (run fine exposed None)))
        = 1.
Proof.
  split; [reflexivity|].
  apply (access_message_printed_once fine exposed None). reflexivity.
Defined.

(** A well-formed archive without entries, unpacked where nothing was:
    the server runs on an empty working directory. *)
Lemma empty_archive_leaves_nothing :
  serving (run empty_release quiet None)
  ∧ final_fs (run empty_release quiet None) = Some (Dir ∅).
Proof. split; reflexivity. Qed.

Lemma unpacked_tree_in_place_witness :
  prologue (World None []) = (Ret tt, downloading)
  ∧ (fetch fine;; unpack fine) downloading = (Ret tt, unpacked)
  ∧ ∃ m0 d members m,
      initial_entries None = Some m0
      ∧ urlopen fine release_url = Downloaded d ∧ ZipFile fine d = inr members
      ∧ fs unpacked = Some (Dir m)
      ∧ m !! "litechat.zip" = None
      ∧ (∀ c, c ≠ "litechat.zip" →
              c ∈ top_names members ∨ is_Some (m0 !! c) → is_Some (m !! c))
      ∧ ∀ a, final_fs (run fine a None) = fs unpacked.
Proof.
  assert ((fetch fine;; unpack fine) downloading = (Ret tt, unpacked))
    as Hstage by (vm_compute; reflexivity).
  split; [reflexivity|]. split; [exact Hstage|].
  exact (unpacked_tree_in_place fine None downloading unpacked eq_refl Hstage).
Defined.

(** * Further properties of the script *)

Lemma fresh_lookup p body :
  lookup_path p (fresh p body)
  = Some (match body with Some d => File d | None => Dir ∅ end).
Proof.
  induction p as [|c p IH]; simpl; [done|]. by rewrite lookup_singleton_eq.
Qed.

Lemma extract_at_lookup_self p : ∀ walked d n n',
  extract_at walked p (Some d) n = inr n' →
  lookup_path p n' = Some (File d).
Proof.
  induction p as [|c p IH]; intros walked d n n'; destruct n as [d0|m]; simpl;
    try done.
  - by intros [= <-].
  - destruct (m !! c) as [child|] eqn:Hc.
    + destruct (extract_at _ p _ child) as [e|child'] eqn:Hchild; [done|].
      intros [= <-]. simpl. rewrite lookup_insert_eq. simpl. by eapply IH.
    + intros [= <-]. simpl. rewrite lookup_insert_eq. simpl.
      apply fresh_lookup.
Qed.

Lemma extract_at_frame q : ∀ walked body n n' p d,
  extract_at walked q body n = inr n' →
  q ≠ p →
  lookup_path p n = Some (File d) →
  lookup_path p n' = Some (File d).
Proof.
  induction q as [|c q IH]; intros walked body n n' p d; destruct n as [d0|m];
    simpl; try done.
  - destruct body; [|done]. intros _ Hne. by destruct p.
  - destruct body; [done|]. by intros [= <-].
  - destruct (m !! c) as [child|] eqn:Hc.
    + destruct (extract_at _ q body child) as [e|child'] eqn:Hchild; [done|].
      intros [= <-] Hne. destruct p as [|c' p]; [done|]. simpl.
      destruct (decide (c' = c)) as [->|Hother].
      * rewrite Hc, lookup_insert_eq. simpl. eapply IH; [done | congruence].
      * by rewrite lookup_insert_ne.
    + intros [= <-] Hne. destruct p as [|c' p]; [done|]. simpl.
      destruct (decide (c' = c)) as [->|Hother]; [by rewrite Hc|].
      by rewrite lookup_insert_ne.
Qed.

(** A member that is extracted without an exception had no fault and went
    through [extract_at]. *)
Lemma _extract_member_returns E i mb m t w' :
  _extract_member E i mb (dir_world m t) = (Ret tt, w') →
  ∃ n', extract_at [] (member_name mb) (member_body mb) (Dir m) = inr n'
        ∧ w' = World (Some n') t.
Proof.
  unfold _extract_member.
  destruct (member_fault E i) as [[e partial]|]; simpl.
  - destruct partial as [d|], (member_body mb); try done.
    rewrite bind_eq. by destruct (on_fs _ _) as [[[]| | |] w1].
  - unfold on_fs, extract_to; simpl.
    destruct (extract_at [] _ _ (Dir m)) as [e|n']; [done|].
    intros [= <-]. by exists n'.
Qed.

(** After a whole archive is extracted, a path that the archive names as a
    file holds the body of the last member of that name, and a file that
    the archive does not name holds what it held. *)
Lemma extract_from_last_write E members : ∀ i m t w' p,
  extract_from E i members (dir_world m t) = (Ret tt, w') →
  ∃ m', w' = dir_world m' t
    ∧ match last_write p members with
      | Some (Some d) => lookup_path p (Dir m') = Some (File d)
      | Some None => True
      | None => ∀ d, lookup_path p (Dir m) = Some (File d) →
                     lookup_path p (Dir m') = Some (File d)
      end.
Proof.
  induction members as [|mb rest IH]; intros i m t w' p; simpl.
  - intros [= <-]. by exists m.
  - rewrite bind_eq.
    destruct (_extract_member E i mb _) as [[[]| | |] w1] eqn:Hone; try done.
    apply _extract_member_returns in Hone as (n1 & Hat & ->).
    destruct (extract_at_root _ _ _ _ _ Hat) as (m1 & -> & _ & _).
    fold (dir_world m1 t). intros Hrest.
    destruct (IH _ _ _ _ p Hrest) as (m' & -> & Hlast). exists m'.
    split; [done|].
    destruct (last_write p rest) as [[d|]|]; [done..|].
    destruct (decide (member_name mb = p)) as [<-|Hne].
    + destruct (member_body mb) as [d|] eqn:Hbody; [|done].
      apply Hlast. by eapply extract_at_lookup_self.
    + intros d Hbefore. apply Hlast. by eapply extract_at_frame.
Qed.

Lemma lookup_path_insert_other c x m p :
  p ≠ [] → head p ≠ Some c →
  lookup_path p (Dir (<[c := x]> m)) = lookup_path p (Dir m).
Proof.
  destruct p as [|c' p]; [done|]. simpl. intros _ Hhead.
  rewrite lookup_insert_ne; [done | congruence].
Qed.

Lemma lookup_path_delete_other c m p :
  p ≠ [] → head p ≠ Some c →
  lookup_path p (Dir (delete c m)) = lookup_path p (Dir m).
Proof.
  destruct p as [|c' p]; [done|]. simpl. intros _ Hhead.
  rewrite lookup_delete_ne; [done | congruence].
Qed.

(** What a fetch and extract stage that returns has done, step by step. *)
Lemma stage_returns E m t w2 :
  (fetch E;; unpack E) (dir_world m t) = (Ret tt, w2) →
  ∃ d0 members m',
    urlopen E release_url = Downloaded d0
    ∧ ZipFile E d0 = inr members
    ∧ extract_from E 0 members
        (dir_world (<["litechat.zip" := File d0]> m)
           (t ++ [Print "Download complete. Extracting..."]))
      = (Ret tt, dir_world m'
                   (t ++ [Print "Download complete. Extracting..."]))
    ∧ w2 = dir_world (delete "litechat.zip" m')
             ((t ++ [Print "Download complete. Extracting..."])
                ++ [Print "Extraction complete."]).
Proof.
  rewrite bind_eq. pose proof (fetch_spec E m t) as Hfetch.
  destruct (fetch E _) as [[[]| | |] w1]; simpl in *; try done.
  destruct Hfetch as (d0 & Hd0 & _ & ->).
  unfold unpack, extractall. rewrite !bind_eq.
  unfold open_archive, stat; simpl. rewrite lookup_insert_eq; simpl.
  destruct (ZipFile E d0) as [e|members] eqn:Hparse; [done|].
  pose proof (extract_from_spec E members 0
                (<["litechat.zip" := File d0]> m)
                (t ++ [Print "Download complete. Extracting..."])) as Hall.
  destruct (extract_from E 0 members _) as [[[]| | |] w'] eqn:Hextract;
    try done.
  destruct Hall as (m' & -> & Hgrows & _).
  destruct (grows_file _ _ _ _ Hgrows (lookup_insert_eq _ _ _)) as [d' Hzip].
  rewrite bind_eq, (os_remove_zip _ _ _ Hzip). intros [= <-].
  by exists d0, members, m'.
Qed.

(** After a fetch and extract stage that returns, a path that the
    archive names as a file holds the body of the last member of that
    name. *)
Lemma last_write_on_disk E fs0 w1 w2 d0 members p d :
  prologue (World fs0 []) = (Ret tt, w1) →
  (fetch E;; unpack E) w1 = (Ret tt, w2) →
  urlopen E release_url = Downloaded d0 →
  ZipFile E d0 = inr members →
  last_write p members = Some (Some d) →
  head p ≠ Some "litechat.zip" →
  stat p (fs w2) = Some (File d).
Proof.
  intros Hprologue Hstage Hd0 Hparse Hlast Hhead.
  destruct (prologue_returns _ _ Hprologue) as (m0 & Hm0 & ->).
  destruct (stage_returns _ _ _ _ Hstage)
    as (d0' & members' & m' & Hd0' & Hparse' & Hextract & ->).
  rewrite Hd0 in Hd0'. injection Hd0' as <-.
  rewrite Hparse in Hparse'. injection Hparse' as <-.
  destruct (extract_from_last_write _ _ _ _ _ _ p Hextract)
    as (m'' & [= <-] & Hp).
  rewrite Hlast in Hp.
  assert (p ≠ []) as Hroot by (by intros ->).
  change (lookup_path p (Dir (delete "litechat.zip" m')) = Some (File d)).
  by rewrite lookup_path_delete_other.
Qed.

(** X1: what the archive puts on disk.  After a fetch and extract stage
    that returns, a path that the archive names as a file holds, to the
    end of the run, the bytes of the last member of that name. *)
Theorem archive_files_on_disk E a fs0 w1 w2 d0 members p d :
  prologue (World fs0 []) = (Ret tt, w1) →
  (fetch E;; unpack E) w1 = (Ret tt, w2) →
  urlopen E release_url = Downloaded d0 →
  ZipFile E d0 = inr members →
  last_write p members = Some (Some d) →
  head p ≠ Some "litechat.zip" →
  stat p (final_fs (run E a fs0)) = Some (File d).
Proof.
  intros Hprologue Hstage Hd0 Hparse Hlast Hhead.
  rewrite (run_after_stage E a fs0 w1 w2 Hprologue Hstage).
  by eapply last_write_on_disk.
Qed.

(** X2: stale files linger.  A file of the working directory that the
    archive does not name is, after a fetch and extract stage that
    returns and to the end of the run, what it was before the run. *)
Theorem stale_files_linger E a fs0 w1 w2 d0 members p d :
  prologue (World fs0 []) = (Ret tt, w1) →
  (fetch E;; unpack E) w1 = (Ret tt, w2) →
  urlopen E release_url = Downloaded d0 →
  ZipFile E d0 = inr members →
  last_write p members = None →
  head p ≠ Some "litechat.zip" →
  stat p fs0 = Some (File d) →
  stat p (final_fs (run E a fs0)) = Some (File d).
Proof.
  intros Hprologue Hstage Hd0 Hparse Hlast Hhead Hbefore.
  rewrite (run_after_stage E a fs0 w1 w2 Hprologue Hstage).
  destruct (prologue_returns _ _ Hprologue) as (m0 & Hm0 & ->).
  destruct (stage_returns _ _ _ _ Hstage)
    as (d0' & members' & m' & Hd0' & Hparse' & Hextract & ->).
  rewrite Hd0 in Hd0'. injection Hd0' as <-.
  rewrite Hparse in Hparse'. injection Hparse' as <-.
  destruct (extract_from_last_write _ _ _ _ _ _ p Hextract)
    as (m'' & [= <-] & Hp).
  rewrite Hlast in Hp.
  assert (fs0 = Some (Dir m0)) as ->.
  { destruct fs0 as [[d1|m1]|]; simpl in *; try done. congruence. }
  simpl in Hbefore. assert (p ≠ []) as Hroot by (by intros ->).
  simpl. rewrite lookup_path_delete_other by done. apply Hp.
  by rewrite lookup_path_insert_other.
Qed.

(** The events of the [try] block, exactly: when it raises, an initial
    part of the two progress lines and the bind, which is empty if the
    archive path is a directory; when it serves, all of them and the
    access line. *)
Lemma body_trace E a m t :
  match (fetch E;; unpack E;; serve E a) (dir_world m t) with
  | (Raise _, w') =>
      ∃ (k : nat) m', (k ≤ 3)%nat
        ∧ (zip_is_dir m = true → k = 0)
        ∧ zip_is_dir m' = zip_is_dir m
        ∧ w' = dir_world m'
                 (t ++ take k [Print "Download complete. Extracting...";
                               Print "Extraction complete.";
                               Listen (bind_address a) (port a)])
  | (Forever, w') =>
      ∃ ip, gethostbyname E (gethostname E) = inr ip
        ∧ trace w' =
          t ++ [Print "Download complete. Extracting...";
                Print "Extraction complete.";
                Listen (bind_address a) (port a);
                Print ("LiteChat is running at " +:+ access_message a ip)]
  | _ => False
  end.
Proof.
  rewrite bind_eq. pose proof (fetch_spec E m t) as Hfetch.
  destruct (fetch E _) as [[[]| | |] w1]; simpl in Hfetch; try done.
  - destruct Hfetch as (d & Hd & Hdir & ->). rewrite bind_eq.
    pose proof (unpack_spec E (<["litechat.zip" := File d]> m)
                  (t ++ [Print "Download complete. Extracting..."]) d
                  (lookup_insert_eq _ _ _)) as Hunpack.
    destruct (unpack E _) as [[[]| | |] w2]; simpl in Hunpack; try done.
    + destruct Hunpack as (members & m' & _ & _ & _ & ->).
      pose proof (serve_spec E a (delete "litechat.zip" m')
                    ((t ++ [Print "Download complete. Extracting..."])
                       ++ [Print "Extraction complete."])) as Hserve.
      destruct (serve E a _) as [[[]| | |] w3]; try done.
      * destruct Hserve as [->| ->];
          [exists 2, (delete "litechat.zip" m')
          |exists 3, (delete "litechat.zip" m')];
          (split_and!; [lia | congruence
                       | by rewrite zip_is_dir_delete
                       | simpl; by rewrite <- !app_assoc]).
      * destruct Hserve as (ip & Hip & ->). exists ip. split; [done|]. simpl.
        by rewrite <- !app_assoc.
    + destruct Hunpack as (m' & -> & Hgrows).
      destruct (grows_file _ _ _ _ Hgrows (lookup_insert_eq _ _ _)) as [d' Hz].
      exists 1, m'. split_and!; [lia | congruence | | done].
      rewrite Hdir. unfold zip_is_dir. by rewrite Hz.
  - destruct Hfetch as (m' & -> & Hdir). exists 0, m'.
    split_and!; [lia | done | done | simpl; by rewrite app_nil_r].
Qed.

(** The events and the end of every run. *)
Lemma run_events E a fs0 :
  let r := run E a fs0 in
  (initial_entries fs0 = None
   ∧ events r = [] ∧ ended r = Uncaught (FileExistsError []))
  ∨ (events r = [Print "Downloading LiteChat release..."]
     ∧ ended r = Uncaught (IsADirectoryError zip_path))
  ∨ (∃ (k : nat) e, (k ≤ 3)%nat
       ∧ events r =
         (Print "Downloading LiteChat release..."
          :: take k [Print "Download complete. Extracting...";
                     Print "Extraction complete.";
                     Listen (bind_address a) (port a)])
           ++ [Print ("Error: " +:+ str E e)]
       ∧ ended r = Exited 1)
  ∨ (∃ ip, gethostbyname E (gethostname E) = inr ip
       ∧ events r =
         [Print "Downloading LiteChat release...";
          Print "Download complete. Extracting...";
          Print "Extraction complete.";
          Listen (bind_address a) (port a);
          Print ("LiteChat is running at " +:+ access_message a ip)]
       ∧ ended r = Serving).
Proof.
  cbv zeta. rewrite run_eq. destruct (initial_entries fs0) as [m|]; [|by left].
  right. simpl.
  pose proof (body_trace E a m [Print "Downloading LiteChat release..."])
    as Hbody.
  destruct ((fetch E;; unpack E;; serve E a) _) as [[[]|e| |] w']; try done.
  - destruct Hbody as (k & m' & Hk & Hzero & Hdir & ->).
    rewrite handler_spec, Hdir. destruct (zip_is_dir m) eqn:Hm.
    + left. by rewrite (Hzero eq_refl).
    + right; left. by exists k, e.
  - destruct Hbody as (ip & Hip & Htrace). right; right. exists ip.
    split; [done|]. unfold finish; simpl. by rewrite Htrace.
Qed.


(** X4: the server is bound only once the archive is unpacked: a run
    with a bind has printed the three progress lines before it, has bound
    once, to the address and port of the command line, and has printed
    exactly one line after it. *)
Theorem binds_only_after_extraction E a fs0 address tcp_port :
  Listen address tcp_port ∈ events (run E a fs0) →
  ∃ line,
    events (run E a fs0) =
    [Print "Downloading LiteChat release...";
     Print "Download complete. Extracting...";
     Print "Extraction complete.";
     Listen (if host a then "0.0.0.0" else "localhost") (port a);
     Print line].
Proof.
  fold (bind_address a).
  destruct (run_events E a fs0)
    as [(_ & -> & _)|[(-> & _)|[(k & e & Hk & -> & _)|(ip & Hip & -> & _)]]];
    intros Hin.
  - by apply elem_of_nil in Hin.
  - by apply list_elem_of_singleton in Hin.
  - destruct k as [|[|[|[|k]]]]; [| | | |lia]; simpl in Hin;
      repeat (apply elem_of_cons in Hin as [Hin|Hin]; [done|]);
      try (by apply elem_of_nil in Hin); by eexists.
  - by eexists.
Qed.

(** X5: a download that fails leaves the working directory as
    [os.makedirs] found or made it, less whatever regular file was at the
    archive path, be it stale or partly written; the run prints the
    error after the first progress line and exits with status 1. *)
Theorem failed_download_cleans_up E a fs0 m0 e partial :
  initial_entries fs0 = Some m0 →
  os_path_isdir (Local zip_path false) fs0 = false →
  urlopen E release_url = DownloadFailed e partial →
  run E a fs0
  = Run (Some (Dir (delete "litechat.zip" m0)))
      [Print "Downloading LiteChat release...";
       Print ("Error: " +:+ str E e)]
      (Exited 1).
Proof.
  intros Hm0 Hnodir Hfail. rewrite (isdir_initial _ _ Hm0) in Hnodir.
  rewrite run_eq, Hm0; simpl. unfold fetch, urlretrieve.
  rewrite !bind_eq, Hfail. destruct partial as [d|].
  - rewrite bind_eq, open_wb_zip, Hnodir; simpl.
    rewrite handler_spec, zip_is_dir_insert_file. by rewrite delete_insert_eq.
  - simpl. by rewrite handler_spec, Hnodir.
Qed.

(** X6: an archive that [ZipFile] rejects is removed with nothing
    extracted: the working directory is as before the download, the run
    prints the error after two progress lines and exits with status 1. *)
Theorem malformed_archive_extracts_nothing E a fs0 m0 d e :
  initial_entries fs0 = Some m0 →
  os_path_isdir (Local zip_path false) fs0 = false →
  urlopen E release_url = Downloaded d →
  ZipFile E d = inl e →
  run E a fs0
  = Run (Some (Dir (delete "litechat.zip" m0)))
      [Print "Downloading LiteChat release...";
       Print "Download complete. Extracting...";
       Print ("Error: " +:+ str E e)]
      (Exited 1).
Proof.
  intros Hm0 Hnodir Hd Hbad. rewrite (isdir_initial _ _ Hm0) in Hnodir.
  rewrite run_eq, Hm0; simpl. unfold fetch, urlretrieve.
  rewrite !bind_eq, Hd, open_wb_zip, Hnodir; simpl.
  unfold unpack, extractall. rewrite !bind_eq.
  unfold open_archive, stat; simpl. rewrite lookup_insert_eq; simpl.
  rewrite Hbad. fold_world.
  rewrite handler_spec, zip_is_dir_insert_file. by rewrite delete_insert_eq.
Qed.

Lemma body_after_stage E a w1 w2 :
  (fetch E;; unpack E) w1 = (Ret tt, w2) →
  (fetch E;; unpack E;; serve E a) w1 = serve E a w2.
Proof. intros Hstage. by rewrite <- bind_assoc, bind_eq, Hstage. Qed.

Lemma stage_world E fs0 w1 w2 :
  prologue (World fs0 []) = (Ret tt, w1) →
  (fetch E;; unpack E) w1 = (Ret tt, w2) →
  ∃ m0 m, initial_entries fs0 = Some m0
    ∧ w1 = dir_world m0 [Print "Downloading LiteChat release..."]
    ∧ zip_is_dir m = false
    ∧ m !! "litechat.zip" = None
    ∧ w2 = dir_world m
             [Print "Downloading LiteChat release...";
              Print "Download complete. Extracting...";
              Print "Extraction complete."].
Proof.
  intros Hprologue Hstage.
  destruct (prologue_returns _ _ Hprologue) as (m0 & Hm0 & ->).
  pose proof (stage_spec E m0 [Print "Downloading LiteChat release..."])
    as Hspec.
  rewrite Hstage in Hspec.
  destruct Hspec as (d & members & m' & _ & _ & _ & _ & _ & ->).
  exists m0, (delete "litechat.zip" m').
  split_and!; [done | done | apply zip_is_dir_delete
              | apply lookup_delete_eq | done].
Qed.

(** X7: when the archive is unpacked but the server cannot be bound,
    the run exits with status 1 after printing the error; nothing was
    bound, no access line is printed, and the unpacked tree stays. *)
Theorem bind_failure_keeps_tree E a fs0 w1 w2 e :
  prologue (World fs0 []) = (Ret tt, w1) →
  (fetch E;; unpack E) w1 = (Ret tt, w2) →
  server_bind E (if host a then "0.0.0.0" else "localhost") (port a)
  = Some e →
  run E a fs0
  = Run (fs w2)
      [Print "Downloading LiteChat release...";
       Print "Download complete. Extracting...";
       Print "Extraction complete.";
       Print ("Error: " +:+ str E e)]
      (Exited 1).
Proof.
  intros Hprologue Hstage Hbind.
  destruct (stage_world _ _ _ _ Hprologue Hstage)
    as (m0 & m & Hm0 & -> & Hdir & Hzip & ->).
  rewrite run_eq, Hm0; simpl. rewrite (body_after_stage _ _ _ _ Hstage).
  unfold serve, HTTPServer. rewrite bind_eq, Hbind; simpl. fold_world.
  rewrite handler_spec, Hdir. by rewrite delete_id.
Qed.

(** X8: the host name is resolved whatever [--host] says: when the
    archive is unpacked and the server bound but [gethostbyname] raises,
    the run exits with status 1 after printing the error, with and
    without the flag, and no access line is printed. *)
Theorem resolver_failure_aborts E a fs0 w1 w2 e :
  prologue (World fs0 []) = (Ret tt, w1) →
  (fetch E;; unpack E) w1 = (Ret tt, w2) →
  server_bind E (if host a then "0.0.0.0" else "localhost") (port a) = None →
  gethostbyname E (gethostname E) = inl e →
  run E a fs0
  = Run (fs w2)
      [Print "Downloading LiteChat release...";
       Print "Download complete. Extracting...";
       Print "Extraction complete.";
       Listen (if host a then "0.0.0.0" else "localhost") (port a);
       Print ("Error: " +:+ str E e)]
      (Exited 1).
Proof.
  intros Hprologue Hstage Hbind Hresolve.
  destruct (stage_world _ _ _ _ Hprologue Hstage)
    as (m0 & m & Hm0 & -> & Hdir & Hzip & ->).
  rewrite run_eq, Hm0; simpl. rewrite (body_after_stage _ _ _ _ Hstage).
  unfold serve, HTTPServer, socket_gethostbyname.
  rewrite !bind_eq, Hbind; simpl. rewrite Hresolve; simpl. fold_world.
  rewrite handler_spec, Hdir. by rewrite delete_id.
Qed.

Lemma run_stage_raises E a fs0 w1 e w' :
  prologue (World fs0 []) = (Ret tt, w1) →
  (fetch E;; unpack E) w1 = (Raise e, w') →
  run E a fs0 = finish (handler E e w').
Proof.
  intros Hprologue Hstage. unfold run, main, try_except.
  by rewrite bind_eq, Hprologue, <- bind_assoc, bind_eq, Hstage.
Qed.

(** X9: the command line has no say in what ends up on disk: two runs
    that differ in their arguments only leave the same filesystem. *)
Theorem arguments_do_not_reach_disk E a a' fs0 :
  final_fs (run E a fs0) = final_fs (run E a' fs0).
Proof.
  destruct (prologue (World fs0 [])) as [[[]|e| |] w1] eqn:Hprologue.
  - destruct ((fetch E;; unpack E) w1) as [[[]|e| |] w2] eqn:Hstage.
    + by rewrite !(run_after_stage E _ fs0 w1 w2 Hprologue Hstage).
    + by rewrite !(run_stage_raises E _ fs0 w1 e w2 Hprologue Hstage).
    + destruct (prologue_returns _ _ Hprologue) as (m0 & Hm0 & ->).
      pose proof (stage_spec E m0 [Print "Downloading LiteChat release..."])
        as Hspec. by rewrite Hstage in Hspec.
    + destruct (prologue_returns _ _ Hprologue) as (m0 & Hm0 & ->).
      pose proof (stage_spec E m0 [Print "Downloading LiteChat release..."])
        as Hspec. by rewrite Hstage in Hspec.
  - rewrite prologue_spec in Hprologue. rewrite !run_eq.
    by destruct (initial_entries fs0).
  - rewrite prologue_spec in Hprologue. by destruct (initial_entries fs0).
  - rewrite prologue_spec in Hprologue. by destruct (initial_entries fs0).
Qed.

(** X10: [os.makedirs] runs before [try]: when the working directory's
    path is a regular file, the run stops on the uncaught
    [FileExistsError] with status 1, having printed nothing, fetched
    nothing and changed nothing. *)
Theorem working_directory_is_a_file E a fs0 d :
  fs0 = Some (File d) →
  run E a fs0 = Run fs0 [] (Uncaught (FileExistsError []))
  ∧ exit_status (run E a fs0) = Some 1%Z
  ∧ stdout (run E a fs0) = []
  ∧ stderr (run E a fs0) = [FileExistsError []].
Proof. intros ->. by rewrite run_eq. Qed.

(** A run that serves went through the prologue and the fetch and
    extract stage, and serves the tree that the stage left. *)
Lemma serving_after_stage E a fs0 :
  serving (run E a fs0) →
  ∃ w1 w2,
    prologue (World fs0 []) = (Ret tt, w1)
    ∧ (fetch E;; unpack E) w1 = (Ret tt, w2)
    ∧ final_fs (run E a fs0) = fs w2.
Proof.
  intros Hserving.
  destruct (prologue (World fs0 [])) as [[[]|e| |] w1] eqn:Hprologue.
  - destruct ((fetch E;; unpack E) w1) as [[[]|e| |] w2] eqn:Hstage.
    + exists w1, w2. split_and!; [done..|]. by eapply run_after_stage.
    + rewrite (run_stage_raises E a fs0 w1 e w2 Hprologue Hstage) in Hserving.
      destruct (prologue_returns _ _ Hprologue) as (m0 & Hm0 & ->).
      pose proof (stage_spec E m0 [Print "Downloading LiteChat release..."])
        as Hspec.
      rewrite Hstage in Hspec. destruct Hspec as (m' & t' & -> & _).
      rewrite handler_spec in Hserving. by destruct (zip_is_dir m').
    + destruct (prologue_returns _ _ Hprologue) as (m0 & Hm0 & ->).
      pose proof (stage_spec E m0 [Print "Downloading LiteChat release..."])
        as Hspec. by rewrite Hstage in Hspec.
    + destruct (prologue_returns _ _ Hprologue) as (m0 & Hm0 & ->).
      pose proof (stage_spec E m0 [Print "Downloading LiteChat release..."])
        as Hspec. by rewrite Hstage in Hspec.
  - rewrite prologue_spec in Hprologue. rewrite run_eq in Hserving.
    by destruct (initial_entries fs0).
  - rewrite prologue_spec in Hprologue. by destruct (initial_entries fs0).
  - rewrite prologue_spec in Hprologue. by destruct (initial_entries fs0).
Qed.

Section FallbackFacts.
Context `{UrlLib}.

Lemma super_missing fs self :
  os_path_exists (translate_path (request_path self)) fs = false →
  SimpleHTTPRequestHandler.do_GET fs self = NotFound.
Proof.
  unfold SimpleHTTPRequestHandler.do_GET, SimpleHTTPRequestHandler.open_rb,
    os_path_exists, os_path_isdir.
  destruct (resolve (translate_path (request_path self)) fs) as [n|];
    [done|].
  intros _. by destruct (trailing_slash (translate_path (request_path self))).
Qed.

Lemma file_answer_plain self fs l d :
  if_modified_since self = None → file_answer self fs l d = OK l d.
Proof.
  intros Hplain. unfold file_answer, SimpleHTTPRequestHandler.use_cache.
  by rewrite Hplain.
Qed.

Lemma file_answer_found self fs l d : file_answer self fs l d ≠ NotFound.
Proof.
  unfold file_answer. by destruct (SimpleHTTPRequestHandler.use_cache _ _).
Qed.

(** X11: with the entry document in place as a regular file, a GET whose
    path does not exist is answered as a GET for the entry document is:
    with its bytes, unless the request is a conditional one that the
    entry document satisfies, which is answered 304 without a body. *)
Theorem missing_path_gets_entry_document fs self d :
  resolve (translate_path "/index.html") fs = Some (File d) →
  os_path_exists (translate_path (request_path self)) fs = false →
  SPAHandler.do_GET fs self
  = (if SimpleHTTPRequestHandler.use_cache self
          (st_mtime fs (components (translate_path "/index.html")))
     then NotModified
     else OK (components (translate_path "/index.html")) d)
  ∧ (if_modified_since self = None →
     SPAHandler.do_GET fs self
     = OK (components (translate_path "/index.html")) d).
Proof.
  intros Hentry Hmissing. rewrite (rewritten_when_missing _ _ Hmissing).
  rewrite (super_existing_file fs (set_path self "/index.html") d Hentry).
  split; [done|]. intros Hplain. by apply file_answer_plain.
Qed.

(** X12: when neither the requested path nor the entry document exists,
    the answer is the parent class's not-found response. *)
Theorem not_found_without_entry_document fs self :
  os_path_exists (translate_path "/index.html") fs = false →
  os_path_exists (translate_path (request_path self)) fs = false →
  SPAHandler.do_GET fs self = NotFound.
Proof.
  intros Hentry Hmissing. rewrite (rewritten_when_missing _ _ Hmissing).
  by apply super_missing.
Qed.

(** X13: with the entry document in place as a regular file, no GET is
    answered with not-found, whatever its path. *)
Theorem never_not_found_with_entry_document fs self d :
  resolve (translate_path "/index.html") fs = Some (File d) →
  SPAHandler.do_GET fs self ≠ NotFound.
Proof.
  intros Hentry.
  destruct (os_path_exists (translate_path (request_path self)) fs)
    eqn:Hexists.
  - rewrite (kept_when_exists _ _ Hexists).
    destruct (resolve (translate_path (request_path self)) fs)
      as [[d'|m]|] eqn:Hres.
    + rewrite (super_existing_file _ _ _ Hres). apply file_answer_found.
    + assert (os_path_isdir (translate_path (request_path self)) fs = true)
        as Hdir by (unfold os_path_isdir; by rewrite Hres).
      pose proof (super_directory _ _ Hdir) as Hanswer.
      by destruct (SimpleHTTPRequestHandler.do_GET fs self).
    + unfold os_path_exists in Hexists. by rewrite Hres in Hexists.
  - rewrite (rewritten_when_missing _ _ Hexists).
    rewrite (super_existing_file fs (set_path self "/index.html") d Hentry).
    apply file_answer_found.
Qed.

(** X14: from the archive to the browser.  When a run serves and the
    last archive member named [index.html] is a file, every GET whose
    path does not exist in the served tree is answered with the bytes of
    that member, unless it is a conditional request that the entry
    document satisfies, which is answered 304 without a body. *)
Theorem served_fallback_is_archive_entry E a fs0 d0 members d self :
  translate_path "/index.html" = Local ["index.html"] false →
  serving (run E a fs0) →
  urlopen E release_url = Downloaded d0 →
  ZipFile E d0 = inr members →
  last_write ["index.html"] members = Some (Some d) →
  os_path_exists (translate_path (request_path self))
    (final_fs (run E a fs0)) = false →
  SPAHandler.do_GET (final_fs (run E a fs0)) self
  = (if SimpleHTTPRequestHandler.use_cache self
          (st_mtime (final_fs (run E a fs0)) ["index.html"])
     then NotModified
     else OK ["index.html"] d)
  ∧ (if_modified_since self = None →
     SPAHandler.do_GET (final_fs (run E a fs0)) self = OK ["index.html"] d).
Proof.
  intros Hurl Hserving Hd0 Hparse Hlast Hmissing.
  rewrite (rewritten_when_missing _ _ Hmissing).
  destruct (serving_after_stage E a fs0 Hserving)
    as (w1 & w2 & Hprologue & Hstage & Hfinal).
  assert (stat ["index.html"] (final_fs (run E a fs0)) = Some (File d))
    as Hdisk.
  { rewrite Hfinal. by eapply last_write_on_disk. }
  rewrite (super_existing_file _ (set_path self "/index.html") d).
  - cbn [request_path set_path]. rewrite Hurl. cbn [components].
    split; [done|]. intros Hplain. by apply file_answer_plain.
  - cbn [request_path set_path]. rewrite Hurl. unfold resolve.
    cbn [components trailing_slash]. by rewrite Hdisk.
Qed.

(** X17: when a run serves, a GET whose path translates to a name that
    the archive brings as a file is answered with the bytes of the last
    member of that name, unless it is a conditional request that the
    file satisfies, which is answered 304 without a body. *)
Theorem served_file_is_archive_entry E a fs0 d0 members name d self :
  translate_path (request_path self) = Local name false →
  serving (run E a fs0) →
  urlopen E release_url = Downloaded d0 →
  ZipFile E d0 = inr members →
  last_write name members = Some (Some d) →
  head name ≠ Some "litechat.zip" →
  SPAHandler.do_GET (final_fs (run E a fs0)) self
  = (if SimpleHTTPRequestHandler.use_cache self
          (st_mtime (final_fs (run E a fs0)) name)
     then NotModified
     else OK name d)
  ∧ (if_modified_since self = None →
     SPAHandler.do_GET (final_fs (run E a fs0)) self = OK name d).
Proof.
  intros Hurl Hserving Hd0 Hparse Hlast Hhead.
  destruct (serving_after_stage E a fs0 Hserving)
    as (w1 & w2 & Hprologue & Hstage & Hfinal).
  assert (resolve (translate_path (request_path self))
            (final_fs (run E a fs0))
          = Some (File d)) as Hres.
  { rewrite Hurl, Hfinal. unfold resolve. cbn [components trailing_slash].
    by rewrite (last_write_on_disk E fs0 w1 w2 d0 members name d). }
  rewrite kept_when_exists by (by eapply exists_of_resolve).
  rewrite (super_existing_file _ _ _ Hres), Hurl. cbn [components].
  split; [done|]. intros Hplain. by apply file_answer_plain.
Qed.

End FallbackFacts.

(** ** Nothing is ever removed *)

Lemma survives_refl fs : survives fs fs.
Proof. intros p x _ Hp. eauto. Qed.

Lemma survives_trans fs1 fs2 fs3 :
  survives fs1 fs2 → survives fs2 fs3 → survives fs1 fs3.
Proof.
  intros H12 H23 p x Hhead Hp.
  destruct (H12 p x Hhead Hp) as (x2 & Hp2 & Hk2).
  destruct (H23 p x2 Hhead Hp2) as (x3 & Hp3 & Hk3).
  exists x3. split; [done | congruence].
Qed.

Lemma extract_at_keeps q : ∀ walked body n n' p x,
  extract_at walked q body n = inr n' →
  lookup_path p n = Some x →
  ∃ x', lookup_path p n' = Some x' ∧ is_file x' = is_file x.
Proof.
  induction q as [|c q IH]; intros walked body n n' p x Hat Hp.
  - destruct p as [|c' p].
    + simpl in Hp. injection Hp as <-. exists n'. split; [done|].
      by eapply extract_at_kind.
    + destruct n as [d|m]; simpl in *; [done|].
      destruct body; [done|]. injection Hat as <-. eauto.
  - destruct p as [|c' p].
    + simpl in Hp. injection Hp as <-. exists n'. split; [done|].
      by eapply extract_at_kind.
    + destruct n as [d|m]; simpl in *; [done|].
      destruct (m !! c) as [child|] eqn:Hc.
      * destruct (extract_at _ q body child) as [e|child'] eqn:Hchild; [done|].
        injection Hat as <-. simpl.
        destruct (decide (c' = c)) as [->|Hother].
        -- rewrite Hc in Hp. rewrite lookup_insert_eq. simpl in *.
           by eapply IH.
        -- rewrite lookup_insert_ne by done. eauto.
      * injection Hat as <-. simpl.
        destruct (decide (c' = c)) as [->|Hother]; [by rewrite Hc in Hp|].
        rewrite lookup_insert_ne by done. eauto.
Qed.

Lemma extract_to_survives p body fs fs' :
  extract_to p body fs = inr fs' → survives fs fs'.
Proof.
  destruct fs as [n|]; simpl; [|by intros _ q x _ Hq].
  destruct (extract_at [] p body n) as [e|n'] eqn:Hat; [done|].
  intros [= <-] q x _ Hq. simpl in *. by eapply extract_at_keeps.
Qed.

Lemma os_makedirs_survives fs fs' : os_makedirs fs = inr fs' → survives fs fs'.
Proof.
  destruct fs as [[d|m]|]; simpl; try done.
  intros [= <-]. apply survives_refl.
Qed.

Lemma open_wb_zip_survives d fs fs' :
  open_wb zip_path d fs = inr fs' → survives fs fs'.
Proof.
  destruct fs as [[d0|m]|]; simpl; try done.
  destruct (m !! "litechat.zip") as [[d1|m1]|] eqn:Hzip; simpl; try done;
    intros [= <-] [|c p] x Hhead Hp; simpl in *.
  - injection Hp as <-. eauto.
  - rewrite lookup_insert_ne by congruence. eauto.
  - injection Hp as <-. eauto.
  - rewrite lookup_insert_ne by congruence. eauto.
Qed.

Lemma os_remove_zip_survives fs fs' :
  os_remove zip_path fs = inr fs' → survives fs fs'.
Proof.
  destruct fs as [[d0|m]|]; simpl; try done.
  destruct (m !! "litechat.zip") as [[d1|m1]|] eqn:Hzip; simpl; try done.
  intros [= <-] [|c p] x Hhead Hp; simpl in *.
  - injection Hp as <-. eauto.
  - rewrite lookup_delete_ne by congruence. eauto.
Qed.

Lemma preserving_ret {A} (a : A) : preserving (mret a : M A).
Proof. intros w. apply survives_refl. Qed.

Lemma preserving_bind {A B} (c : M A) (k : A → M B) :
  preserving c → (∀ a, preserving (k a)) → preserving (c ≫= k).
Proof.
  intros Hc Hk w. rewrite bind_eq. specialize (Hc w).
  destruct (c w) as [[a|e|n|] w']; simpl in *; [|done..].
  eapply survives_trans; [done | apply Hk].
Qed.

Lemma preserving_raise {A} e : preserving (raise e : M A).
Proof. intros w. apply survives_refl. Qed.

Lemma preserving_print line : preserving (print line).
Proof. intros w. apply survives_refl. Qed.

Lemma preserving_on_fs op :
  (∀ fs fs', op fs = inr fs' → survives fs fs') → preserving (on_fs op).
Proof.
  intros Hop w. unfold on_fs. destruct (op (fs w)) as [e|fs'] eqn:Hw; simpl.
  - apply survives_refl.
  - by apply Hop.
Qed.

Lemma preserving_try_except {A} (body : M A) handler :
  preserving body → (∀ e, preserving (handler e)) →
  preserving (try_except body handler).
Proof.
  intros Hbody Hhandler w. unfold try_except. specialize (Hbody w).
  destruct (body w) as [[a|e|n|] w']; simpl in *; [done| |done..].
  eapply survives_trans; [done | apply Hhandler].
Qed.

Lemma preserving_extract_from E members : ∀ i,
  preserving (extract_from E i members).
Proof.
  induction members as [|mb rest IH]; intros i; simpl.
  - apply preserving_ret.
  - apply preserving_bind; [|done]. unfold _extract_member.
    destruct (member_fault E i) as [[e partial]|]; simpl.
    + destruct partial as [d|], (member_body mb);
        try apply preserving_raise.
      apply preserving_bind; [|intros; apply preserving_raise].
      apply preserving_on_fs, extract_to_survives.
    + apply preserving_on_fs, extract_to_survives.
Qed.

Lemma preserving_same_fs {A} (c : M A) :
  (∀ w, fs (c w).2 = fs w) → preserving c.
Proof. intros Hsame w. rewrite Hsame. apply survives_refl. Qed.

Lemma preserving_fetch E : preserving (fetch E).
Proof.
  unfold fetch, urlretrieve.
  apply preserving_bind; [|intros; apply preserving_print].
  destruct (urlopen E release_url) as [d|e [d|]].
  - apply preserving_on_fs, open_wb_zip_survives.
  - apply preserving_bind; [|intros; apply preserving_raise].
    apply preserving_on_fs, open_wb_zip_survives.
  - apply preserving_raise.
Qed.

Lemma preserving_unpack E : preserving (unpack E).
Proof.
  unfold unpack, extractall. apply preserving_bind.
  - apply preserving_bind; [|intros; apply preserving_extract_from].
    apply preserving_same_fs. intros w. unfold open_archive.
    destruct (stat zip_path (fs w)) as [[d|m]|]; [|done..].
    by destruct (ZipFile E d).
  - intros _. apply preserving_bind; [|intros; apply preserving_print].
    apply preserving_on_fs, os_remove_zip_survives.
Qed.

Lemma preserving_serve E a : preserving (serve E a).
Proof.
  apply preserving_same_fs. intros w.
  unfold serve, HTTPServer, socket_gethostbyname. rewrite bind_eq.
  destruct (server_bind E _ _); simpl; [done|].
  by destruct (gethostbyname E _).
Qed.

Lemma preserving_handler E e : preserving (handler E e).
Proof.
  unfold handler, if_. apply preserving_bind.
  - apply preserving_bind; [by apply preserving_same_fs|].
    intros [|]; [|apply preserving_ret].
    apply preserving_on_fs, os_remove_zip_survives.
  - intros _. apply preserving_bind; [apply preserving_print|].
    intros _. by apply preserving_same_fs.
Qed.

Lemma preserving_main E a : preserving (main E a).
Proof.
  unfold main, prologue. apply preserving_bind.
  - apply preserving_bind; [|intros; apply preserving_print].
    apply preserving_on_fs, os_makedirs_survives.
  - intros _. apply preserving_try_except; [|apply preserving_handler].
    apply preserving_bind; [apply preserving_fetch|]. intros _.
    apply preserving_bind; [apply preserving_unpack|]. intros _.
    apply preserving_serve.
Qed.

(** X16: no run removes anything but the archive.  Whatever the
    filesystem holds before the run at a path away from [litechat.zip], a
    file or a directory, it holds there after the run, however the run
    ends, and a file is still a file and a directory a directory. *)
Theorem nothing_else_is_removed E a fs0 p x :
  head p ≠ Some "litechat.zip" →
  stat p fs0 = Some x →
  ∃ x', stat p (final_fs (run E a fs0)) = Some x' ∧ is_file x' = is_file x.
Proof. intros Hhead Hp. by apply (preserving_main E a (World fs0 [])). Qed.

(** X15: when the archive path is a directory the clean-up itself fails:
    [os.remove] raises inside the handler, so the run stops on that
    uncaught exception with status 1 after the first progress line,
    prints no [Error:] line and leaves the working directory as
    [os.makedirs] found it. *)
Theorem cleanup_fails_on_directory E a fs0 m0 :
  initial_entries fs0 = Some m0 →
  os_path_isdir (Local zip_path false) fs0 = true →
  run E a fs0
  = Run (Some (Dir m0)) [Print "Downloading LiteChat release..."]
      (Uncaught (IsADirectoryError zip_path)).
Proof.
  intros Hm0 Hdir. rewrite (isdir_initial _ _ Hm0) in Hdir.
  rewrite run_eq, Hm0; simpl. unfold fetch, urlretrieve. rewrite !bind_eq.
  destruct (urlopen E release_url) as [d|e [d|]].
  - rewrite open_wb_zip, Hdir; simpl. fold_world.
    by rewrite handler_spec, Hdir.
  - rewrite bind_eq, open_wb_zip, Hdir; simpl. fold_world.
    by rewrite handler_spec, Hdir.
  - simpl. fold_world. by rewrite handler_spec, Hdir.
Qed.

(** * The further statements on sample runs *)

Lemma fine_stage : (fetch fine;; unpack fine) downloading = (Ret tt, unpacked).
Proof. vm_compute. reflexivity. Defined.

Lemma archive_files_on_disk_witness :
  prologue (World None []) = (Ret tt, downloading)
  ∧ (fetch fine;; unpack fine) downloading = (Ret tt, unpacked)
  ∧ last_write ["assets"; "app.js"] release = Some (Some script)
  ∧ stat ["assets"; "app.js"] (final_fs (run fine quiet None))
    = Some (File script).
Proof.
  split; [reflexivity|]. split; [exact fine_stage|]. split; [reflexivity|].
  apply (archive_files_on_disk fine quiet None downloading unpacked zipped
           release ["assets"; "app.js"] script);
    [reflexivity | exact fine_stage | reflexivity | reflexivity
    | reflexivity | discriminate].
Defined.

Lemma upgrade_stage :
  (fetch fine;; unpack fine)
    (World old_release [Print "Downloading LiteChat release..."])
  = (Ret tt, upgraded).
Proof. vm_compute. reflexivity. Defined.

Lemma stale_files_linger_witness :
  last_write ["old.css"] release = None
  ∧ stat ["old.css"] old_release = Some (File script)
  ∧ stat ["old.css"] (final_fs (run fine quiet old_release))
    = Some (File script).
Proof.
  split; [reflexivity|]. split; [reflexivity|].
  apply (stale_files_linger fine quiet old_release
           (World old_release [Print "Downloading LiteChat release..."])
           upgraded zipped release ["old.css"] script);
    [reflexivity | exact upgrade_stage | reflexivity | reflexivity
    | reflexivity | discriminate | reflexivity].
Defined.

Lemma binds_only_after_extraction_witness :
  Listen "localhost" 3000 ∈ events (run no_resolver quiet None)
  ∧ ∃ line,
      events (run no_resolver quiet None) =
      [Print "Downloading LiteChat release...";
       Print "Download complete. Extracting...";
       Print "Extraction complete.";
       Listen "localhost" 3000;
       Print line].
Proof.
  assert (Listen "localhost" 3000 ∈ events (run no_resolver quiet None))
    as Hbound.
  { change (events (run no_resolver quiet None))
      with [Print "Downloading LiteChat release...";
            Print "Download complete. Extracting...";
            Print "Extraction complete.";
            Listen "localhost" 3000;
            Print "Error: [Errno -2] Name or service not known"].
    rewrite !elem_of_cons. tauto. }
  split; [exact Hbound|].
  exact (binds_only_after_extraction no_resolver quiet None _ _ Hbound).
Defined.

Lemma failed_download_cleans_up_witness :
  initial_entries None = Some ∅
  ∧ os_path_isdir (Local zip_path false) None = false
  ∧ run cut_off quiet None
    = Run (Some (Dir (delete "litechat.zip" ∅)))
        [Print "Downloading LiteChat release...";
         Print "Error: retrieval incomplete: got only 2 out of 4 bytes"]
        (Exited 1).
Proof.
  split; [reflexivity|]. split; [reflexivity|].
  exact (failed_download_cleans_up cut_off quiet None ∅ _ _
           eq_refl eq_refl eq_refl).
Defined.

Lemma malformed_archive_extracts_nothing_witness :
  initial_entries old_release
  = Some {[ "index.html" := File script; "old.css" := File script ]}
  ∧ os_path_isdir (Local zip_path false) old_release = false
  ∧ final_fs (run bad_zip quiet old_release) = old_release
  ∧ stdout (run bad_zip quiet old_release)
    = ["Downloading LiteChat release...";
       "Download complete. Extracting...";
       "Error: File is not a zip file"].
Proof.
  split; [reflexivity|]. split; [reflexivity|].
  rewrite (malformed_archive_extracts_nothing bad_zip quiet old_release
             _ zipped _ eq_refl eq_refl eq_refl eq_refl).
  split; [vm_compute; reflexivity | reflexivity].
Defined.

Lemma bind_failure_keeps_tree_witness :
  server_bind port_busy "localhost" 3000
  = Some (Exception "[Errno 98] Address already in use")
  ∧ run port_busy quiet None
    = Run site
        [Print "Downloading LiteChat release...";
         Print "Download complete. Extracting...";
         Print "Extraction complete.";
         Print "Error: [Errno 98] Address already in use"]
        (Exited 1).
Proof.
  split; [reflexivity|].
  assert ((fetch port_busy;; unpack port_busy) downloading
          = (Ret tt, unpacked)) as Hstage by (vm_compute; reflexivity).
  exact (bind_failure_keeps_tree port_busy quiet None downloading unpacked
           (Exception "[Errno 98] Address already in use")
           eq_refl Hstage eq_refl).
Defined.

Lemma resolver_failure_aborts_witness :
  gethostbyname no_resolver (gethostname no_resolver)
  = inl (Exception "[Errno -2] Name or service not known")
  ∧ run no_resolver quiet None
    = Run site
        [Print "Downloading LiteChat release...";
         Print "Download complete. Extracting...";
         Print "Extraction complete.";
         Listen "localhost" 3000;
         Print "Error: [Errno -2] Name or service not known"]
        (Exited 1).
Proof.
  split; [reflexivity|].
  assert ((fetch no_resolver;; unpack no_resolver) downloading
          = (Ret tt, unpacked)) as Hstage by (vm_compute; reflexivity).
  exact (resolver_failure_aborts no_resolver quiet None downloading unpacked
           (Exception "[Errno -2] Name or service not known")
           eq_refl Hstage eq_refl eq_refl).
Defined.

Lemma working_directory_is_a_file_witness :
  exit_status (run fine quiet (Some (File []))) = Some 1%Z
  ∧ stdout (run fine quiet (Some (File []))) = []
  ∧ stderr (run fine quiet (Some (File []))) = [FileExistsError []].
Proof.
  apply (working_directory_is_a_file fine quiet (Some (File [])) []).
  reflexivity.
Defined.

Lemma missing_path_gets_entry_document_witness :
  resolve (@translate_path posix_urls "/index.html") site = Some (File html)
  ∧ os_path_exists (@translate_path posix_urls "/settings") site = false
  ∧ @SPAHandler.do_GET posix_urls site (GET "/settings")
    = OK ["index.html"] html
  ∧ @SPAHandler.do_GET posix_urls site (GET_since "/settings" 1700000000)
    = NotModified.
Proof.
  split; [reflexivity|]. split; [reflexivity|].
  split.
  - apply (@missing_path_gets_entry_document posix_urls site
             (GET "/settings") html); reflexivity.
  - apply (@missing_path_gets_entry_document posix_urls site
             (GET_since "/settings" 1700000000) html); reflexivity.
Defined.

Lemma not_found_without_entry_document_witness :
  os_path_exists (@translate_path posix_urls "/index.html") (Some (Dir ∅))
  = false
  ∧ os_path_exists (@translate_path posix_urls "/settings") (Some (Dir ∅))
    = false
  ∧ @SPAHandler.do_GET posix_urls (Some (Dir ∅)) (GET "/settings")
    = NotFound.
Proof.
  split; [reflexivity|]. split; [reflexivity|].
  apply (@not_found_without_entry_document posix_urls (Some (Dir ∅))
           (GET "/settings")); reflexivity.
Defined.

Lemma never_not_found_with_entry_document_witness :
  resolve (@translate_path posix_urls "/index.html") site = Some (File html)
  ∧ @SPAHandler.do_GET posix_urls site (GET "/assets/missing.png")
    ≠ NotFound.
Proof.
  split; [reflexivity|].
  apply (@never_not_found_with_entry_document posix_urls site
           (GET "/assets/missing.png") html). reflexivity.
Defined.

Lemma served_fallback_is_archive_entry_witness :
  serving (run fine quiet None)
  ∧ last_write ["index.html"] release = Some (Some html)
  ∧ os_path_exists (@translate_path posix_urls "/chat/42")
      (final_fs (run fine quiet None)) = false
  ∧ @SPAHandler.do_GET posix_urls (final_fs (run fine quiet None))
      (GET "/chat/42")
    = OK ["index.html"] html.
Proof.
  split; [reflexivity|]. split; [reflexivity|].
  split; [vm_compute; reflexivity|].
  apply (@served_fallback_is_archive_entry posix_urls fine quiet None zipped
           release html (GET "/chat/42"));
    [reflexivity | reflexivity | reflexivity | reflexivity | reflexivity
    | vm_compute; reflexivity | reflexivity].
Defined.

Lemma cleanup_fails_on_directory_witness :
  os_path_isdir (Local zip_path false) blocked = true
  ∧ run offline quiet blocked
    = Run blocked [Print "Downloading LiteChat release..."]
        (Uncaught (IsADirectoryError zip_path)).
Proof.
  split; [reflexivity|].
  apply (cleanup_fails_on_directory offline quiet blocked
           {[ "litechat.zip" := Dir ∅ ]}); reflexivity.
Defined.

Lemma nothing_else_is_removed_witness :
  stat ["old.css"] old_release = Some (File script)
  ∧ exit_status (run disk_full quiet old_release) = Some 1%Z
  ∧ ∃ x', stat ["old.css"] (final_fs (run disk_full quiet old_release))
          = Some x'
          ∧ is_file x' = is_file (File script).
Proof.
  split; [reflexivity|]. split; [reflexivity|].
  apply (nothing_else_is_removed disk_full quiet old_release ["old.css"]
           (File script)); [discriminate | reflexivity].
Defined.

Lemma served_file_is_archive_entry_witness :
  @translate_path posix_urls "/assets/app.js?v=2"
  = Local ["assets"; "app.js"] false
  ∧ serving (run fine exposed None)
  ∧ last_write ["assets"; "app.js"] release = Some (Some script)
  ∧ @SPAHandler.do_GET posix_urls (final_fs (run fine exposed None))
      (GET "/assets/app.js?v=2")
    = OK ["assets"; "app.js"] script.
Proof.
  split; [reflexivity|]. split; [reflexivity|]. split; [reflexivity|].
  apply (@served_file_is_archive_entry posix_urls fine exposed None zipped
           release ["assets"; "app.js"] script (GET "/assets/app.js?v=2"));
    [reflexivity | reflexivity | reflexivity | reflexivity | reflexivity
    | discriminate | reflexivity].
Defined.
